(** * dump-sparql-graphstore-pipeline: the pipeline of [src/index.js]

    The program reads its parameters from the process environment, fetches an
    RDF document, has it parsed into a store, evaluates one SPARQL query over
    that store, serializes the resulting quads to Turtle and writes the text
    to a graph store over HTTP.

    The embedding follows [src/index.js] function by function.  Effects are
    explicit: a computation yields the list of effects it performed, in
    order, together with the way it settled (resolved with a value, or
    rejected with a thrown value).  Everything the program obtains from
    outside (the environment, the HTTP client, the RDF parser, the N3 store,
    the query engine and the Turtle writer) is a field of [World].

    Conventions of the model.
    - A JavaScript string is a Rocq [string], one character per UTF-16 code
      unit; the model covers the code units below 256.  HTTP header values
      are byte strings, so this is all of them; environment values outside
      that range are not represented.
    - Every promise the host or a collaborator hands to the program is taken
      to settle, and every stream to finish with ['end'] or ['error'].
    - The handler at the end of the file (lines 111 to 114), which prints a
      rejection of [main] and exits with status 1, is not part of the model. *)

From Stdlib Require Import Ascii String NArith List Lia.
From stdpp Require Import base option list strings gmap pretty.

Local Open Scope stdpp_scope.

(** ** The JavaScript operations the program relies on *)

Module Js.

(** The code unit of a character. *)
Definition code (c : ascii) : N := N_of_ascii c.

(** [WhiteSpace] and [LineTerminator] of ECMAScript, below code unit 256:
    TAB, LF, VT, FF, CR, SP and NBSP.  This is what [trim] removes. *)
Definition isWhiteSpace (c : ascii) : bool :=
  let n := code c in
  ((9 <=? n) && (n <=? 13) || (n =? 32) || (n =? 160))%N.

(** [String.prototype.trimStart] *)
Fixpoint trimStart (s : string) : string :=
  match s with
  | EmptyString => EmptyString
  | String c rest => if isWhiteSpace c then trimStart rest else s
  end.

(** [String.prototype.trimEnd] *)
Fixpoint trimEnd (s : string) : string :=
  match s with
  | EmptyString => EmptyString
  | String c rest =>
      match trimEnd rest with
      | EmptyString => if isWhiteSpace c then EmptyString else String c EmptyString
      | kept => String c kept
      end
  end.

(** [String.prototype.trim] *)
Definition trim (s : string) : string := trimEnd (trimStart s).

(** [String.prototype.split] with a separator of one code unit: the pieces
    between the occurrences of the separator, in order.  The result is
    never the empty array: [''.split(';')] is [['']]. *)
Fixpoint split (sep : ascii) (s : string) : list string :=
  match s with
  | EmptyString => [EmptyString]
  | String c rest =>
      if Ascii.eqb c sep then EmptyString :: split sep rest
      else match split sep rest with
           | piece :: pieces => String c piece :: pieces
           | [] => [String c EmptyString]
           end
  end.

(** [Array.prototype.join] *)
Fixpoint join (sep : string) (parts : list string) : string :=
  match parts with
  | [] => ""
  | [p] => p
  | p :: rest => p +:+ sep +:+ join sep rest
  end.

(** Upper case of one code unit.  Below 256 the letters with an upper case
    are a-z and the Latin-1 letters 224-254 (the division sign 247 is not a
    letter); sharp s (223) becomes SS.  The upper cases of the micro sign
    (181) and of y with diaeresis (255) are above 255 and so outside the
    model: the two are left as they are. *)
Definition upperUnit (c : ascii) : string :=
  let n := code c in
  if ((97 <=? n) && (n <=? 122))%N then String (ascii_of_N (n - 32)) ""
  else if ((224 <=? n) && (n <=? 254) && negb (n =? 247))%N
       then String (ascii_of_N (n - 32)) ""
  else if (n =? 223)%N then "SS"
  else String c "".

(** [String.prototype.toUpperCase] *)
Fixpoint toUpperCase (s : string) : string :=
  match s with
  | EmptyString => EmptyString
  | String c rest => upperUnit c +:+ toUpperCase rest
  end.

(** [Array.prototype.includes] on an array of strings. *)
Definition includes (xs : list string) (x : string) : bool :=
  existsb (String.eqb x) xs.

(** [v || d] for a value [v] that is a string or [undefined] and a default
    [d]: [undefined] and the empty string are the falsy ones. *)
Definition orElse (v : option string) (d : string) : string :=
  match v with
  | Some s => if String.eqb s "" then d else s
  | None => d
  end.

(** Whether the upper case of every code unit of [s] lies below 256, so
    that [toUpperCase] above gives the text that JavaScript gives: no
    micro sign (181) and no y with diaeresis (255). *)
Fixpoint upperCaseBelow256 (s : string) : bool :=
  match s with
  | EmptyString => true
  | String c rest =>
      negb ((code c =? 181) || (code c =? 255))%N && upperCaseBelow256 rest
  end.

(** The names that every object inherits from [Object.prototype].  Read
    on an object that has no property of its own under such a name, they
    give a function or an object, never a string. *)
Definition inheritedNames : list string :=
  [ "constructor"; "__defineGetter__"; "__defineSetter__"; "hasOwnProperty";
    "__lookupGetter__"; "__lookupSetter__"; "isPrototypeOf";
    "propertyIsEnumerable"; "toString"; "valueOf"; "__proto__";
    "toLocaleString" ].

Definition inherited (name : string) : bool := includes inheritedNames name.

(** The escape [\n] of a template literal. *)
Definition newline : string := String "010"%char "".

(** A non-negative integer inside a template literal: its decimal digits. *)
Definition show (n : N) : string := pretty n.

End Js.

(** ** Data *)

(** RDF/JS terms and quads, as the parser and the query engine produce them. *)
Inductive Term :=
| NamedNode (iri : string)
| BlankNode (label : string)
| Literal (value language datatype : string)
| QueryVariable (name : string)
| DefaultGraph.

Record Quad := {
  subject : Term;
  predicate : Term;
  object : Term;
  graph : Term;
}.

(** What a JavaScript [throw] or a rejected promise carries. *)
Inductive Thrown :=
| Error (message : string)   (** [new Error(message)] *)
| Other (what : string).     (** any other value, such as a [TypeError] of the host *)

(** How an awaited computation settles. *)
Inductive Outcome (A : Type) :=
| Resolved (value : A)
| Rejected (reason : Thrown).
Arguments Resolved {A} value.
Arguments Rejected {A} reason.

(** A Node stream as its consumer sees it: the ['data'] events in order,
    followed by ['end'] or by ['error']. *)
Inductive Ending :=
| End
| Failed (reason : Thrown).

Record Stream (A : Type) := {
  chunks : list A;
  ending : Ending;
}.
Arguments chunks {A} _.
Arguments ending {A} _.

(** The url and the second argument of [fetch(url, init)]. *)
Module Request.

Record t := {
  url : string;
  method : option string;
  headers : list (string * string);
  body : option string;
}.

(** The method the client sends: GET when [init] names none. *)
Definition verb (r : t) : string := default "GET" (method r).

End Request.

(** The [Response] a resolved [fetch] gives. *)
Module Response.

Record t := {
  status : N;
  statusText : string;
  headers : gmap string string;        (** by lower-case header name *)
  body : option string;                (** [null] for a response without a body *)
  text : Outcome string;               (** what [text()] settles to *)
}.

(** [ok] is true exactly for the statuses 200 to 299. *)
Definition ok (r : t) : bool := ((200 <=? status r) && (status r <=? 299))%N.

(** [headers.get(name)] *)
Definition get (r : t) (name : string) : option string := headers r !! name.

End Response.

(** [new Store(quads)] of N3: the quads it was built from. *)
Record Store := { added : list Quad }.

(** ** Effects *)

Inductive Effect :=
| ConsoleError (line : string)                    (** [console.error(line)] *)
| HttpFetch (request : Request.t)                 (** [fetch(url, init)] *)
| RdfParse (body contentType baseIRI : string)    (** [rdfParser.parse(stream, options)] *)
| NewStore (quads : list Quad)                    (** [new Store(quads)] *)
| QueryQuads (query : string) (source : Store)    (** [engine.queryQuads(query, {sources})] *)
| WriteTurtle (quads : list Quad)                 (** [writer.addQuads(quads); writer.end(cb)] *)
| ReadText (response : Response.t).               (** [response.text()] *)

(** Everything outside the program. *)
Record World := {
  env : gmap string string;                       (** [process.env] *)
  fetch : Request.t → Outcome Response.t;
  rdfParser_parse : string → string → string → Stream Quad;
  store_size : Store → N;                         (** [store.size] *)
  queryQuads : string → Store → Outcome (Stream Quad);
  writer_end : list Quad → Outcome string;        (** the [(err, ttl)] given to the callback *)
}.

(** A run: the effects performed, in order, and the way it settled. *)
Definition Run (A : Type) : Type := list Effect * Outcome A.

Definition trace {A} (r : Run A) : list Effect := r.1.
Definition outcome {A} (r : Run A) : Outcome A := r.2.

Global Instance run_ret : MRet Run := λ A a, ([], Resolved a).

Global Instance run_bind : MBind Run := λ A B k m,
  match m with
  | (t, Resolved a) => let r := k a in (t ++ trace r, outcome r)
  | (t, Rejected e) => (t, Rejected e)
  end.

(** [throw e] *)
Definition throw {A} (e : Thrown) : Run A := ([], Rejected e).

(** Performing an effect whose result the world determines, and awaiting it. *)
Definition perform {A} (ef : Effect) (result : Outcome A) : Run A := ([ef], result).

(** [promise.catch(handler)] *)
Definition catch {A} (m : Run A) (handler : Thrown → Run A) : Run A :=
  match m with
  | (t, Resolved a) => (t, Resolved a)
  | (t, Rejected e) => let r := handler e in (t ++ trace r, outcome r)
  end.

Definition console_error (line : string) : Run unit :=
  perform (ConsoleError line) (Resolved tt).

(** ** The program, [src/index.js] *)

Section Program.

Variable w : World.

(** [streamToArray]: every ['data'] item is pushed onto [items]; ['end']
    resolves with [items], ['error'] rejects. *)
Definition streamToArray {A} (stream : Stream A) : Run (list A) :=
  let items := foldl (λ items item, items ++ [item]) [] (chunks stream) in
  match ending stream with
  | End => mret items
  | Failed reason => throw reason
  end.

(** [mustEnv].  [process.env[name]] is the variable when it is set, and
    [!v] holds of [undefined] and of the empty string.  When no such
    variable is set and [name] is inherited from [Object.prototype], [v]
    is a function or an object: it is truthy and has no [trim], so that
    [v.trim()] throws. *)
Definition mustEnv (name : string) : Run string :=
  match env w !! name with
  | None =>
      if Js.inherited name
      then throw (Other "TypeError: v.trim is not a function")
      else throw (Error ("Missing env var: " +:+ name))
  | Some v =>
      if String.eqb v "" || String.eqb (Js.trim v) ""
      then throw (Error ("Missing env var: " +:+ name))
      else mret v
  end.

(** The [accept] header of the source request. *)
Definition accept : string :=
  Js.join ", "
    [ "text/turtle";
      "application/n-triples";
      "application/ld+json";
      "application/rdf+xml";
      "application/trig";
      "application/n-quads";
      "application/octet-stream;q=0.1";
      "*/*;q=0.01" ].

Definition sourceRequest (url : string) : Request.t :=
  {| Request.url := url;
     Request.method := None;
     Request.headers := [("accept", accept)];
     Request.body := None |}.

(** [res.headers.get("content-type")?.split(";")[0]?.trim() || "text/turtle"] *)
Definition contentTypeOf (res : Response.t) : string :=
  Js.orElse
    (Js.trim <$> (Response.get res "content-type" ≫= λ h, Js.split ";" h !! 0%nat))
    "text/turtle".

(** [Readable.fromWeb(body)] throws on [null]. *)
Definition fromWeb (body : option string) : Run string :=
  match body with
  | Some bytes => mret bytes
  | None => throw (Other "TypeError [ERR_INVALID_ARG_TYPE]")
  end.

Definition fetchRdfToStore (url : string) : Run Store :=
  res ← perform (HttpFetch (sourceRequest url)) (fetch w (sourceRequest url));
  if negb (Response.ok res) then
    throw (Error ("Failed to fetch RDF: " +:+ Js.show (Response.status res) +:+ " "
                    +:+ Response.statusText res +:+ " (" +:+ url +:+ ")"))
  else
    nodeStream ← fromWeb (Response.body res);
    let contentType := contentTypeOf res in
    quadStream ← perform (RdfParse nodeStream contentType url)
                         (Resolved (rdfParser_parse w nodeStream contentType url));
    quads ← streamToArray quadStream;
    store ← perform (NewStore quads) (Resolved {| added := quads |});
    mret store.

Definition quadsToTurtle (quads : list Quad) : Run string :=
  perform (WriteTurtle quads) (writer_end w quads).

Definition writeRequest (STORE METHOD ttl : string) : Request.t :=
  {| Request.url := STORE;
     Request.method := Some METHOD;
     Request.headers := [("content-type", "text/turtle")];
     Request.body := Some ttl |}.

Definition main : Run unit :=
  URL ← mustEnv "URL";
  QUERY ← mustEnv "Query";
  STORE ← mustEnv "STORE";
  let METHOD := Js.toUpperCase (Js.orElse (env w !! "METHOD") "POST") in
  if negb (Js.includes ["PUT"; "POST"] METHOD) then
    throw (Error ("METHOD must be PUT or POST (got: " +:+ METHOD +:+ ")"))
  else
    console_error ("[1/3] Fetching RDF from: " +:+ URL);;
    sourceStore ← fetchRdfToStore URL;
    console_error ("[1/3] Loaded quads: " +:+ Js.show (store_size w sourceStore));;
    console_error "[2/3] Evaluating SPARQL query...";;
    resultQuadStream ← perform (QueryQuads QUERY sourceStore) (queryQuads w QUERY sourceStore);
    resultQuads ← streamToArray resultQuadStream;
    console_error ("[2/3] Result quads: " +:+ Js.show (N.of_nat (length resultQuads)));;
    ttl ← quadsToTurtle resultQuads;
    console_error ("[3/3] Writing results to store: " +:+ STORE
                     +:+ " (METHOD=" +:+ METHOD +:+ ")");;
    writeRes ← perform (HttpFetch (writeRequest STORE METHOD ttl))
                       (fetch w (writeRequest STORE METHOD ttl));
    if negb (Response.ok writeRes) then
      body ← catch (perform (ReadText writeRes) (Response.text writeRes)) (λ _, mret "");
      throw (Error ("Failed to write to STORE: " +:+ Js.show (Response.status writeRes)
                      +:+ " " +:+ Response.statusText writeRes +:+ Js.newline +:+ body))
    else
      console_error "[3/3] Done.".

End Program.

(** ** Vocabulary of the specification *)

Module Spec.

(** A string that consists only of whitespace (the empty string too). *)
Fixpoint blank (s : string) : bool :=
  match s with
  | EmptyString => true
  | String c rest => Js.isWhiteSpace c && blank rest
  end.

Definition startsWithSpace (s : string) : bool :=
  match s with
  | EmptyString => false
  | String c _ => Js.isWhiteSpace c
  end.

Fixpoint endsWithSpace (s : string) : bool :=
  match s with
  | EmptyString => false
  | String c EmptyString => Js.isWhiteSpace c
  | String _ rest => endsWithSpace rest
  end.

Fixpoint mentions (c : ascii) (s : string) : bool :=
  match s with
  | EmptyString => false
  | String d rest => Ascii.eqb d c || mentions c rest
  end.

(** [r] is [s] with the surrounding whitespace removed. *)
Definition Trimmed (s r : string) : Prop :=
  ∃ before after,
    s = before +:+ r +:+ after ∧
    blank before = true ∧ blank after = true ∧
    startsWithSpace r = false ∧ endsWithSpace r = false.

(** [p] is the header value [h] with its parameters removed: all of [h]
    when it has no [;], and else what stands before the first [;]. *)
Definition WithoutParameters (h p : string) : Prop :=
  mentions ";" p = false ∧
  (h = p ∨ ∃ parameters, h = p +:+ String ";" parameters).

(** The content type negotiated from a [content-type] header. *)
Definition Negotiated (header : option string) (contentType : string) : Prop :=
  match header with
  | None => contentType = "text/turtle"
  | Some h =>
      ∃ p r, WithoutParameters h p ∧ Trimmed p r ∧
             contentType = (if decide (r = "") then "text/turtle" else r)
  end.

(** The two write semantics and the HTTP method of each. *)
Inductive WriteMethod := REPLACE | APPEND.

Definition httpMethod (m : WriteMethod) : string :=
  match m with
  | REPLACE => "PUT"
  | APPEND => "POST"
  end.

Record Configuration := {
  sourceUrl : string;
  query : string;
  storeUrl : string;
  writeMethod : WriteMethod;
}.

(** ASCII lower case, for comparing without regard to case. *)
Definition lowerUnit (c : ascii) : ascii :=
  let n := Js.code c in
  if ((65 <=? n) && (n <=? 90))%N then ascii_of_N (n + 32) else c.

Fixpoint lower (s : string) : string :=
  match s with
  | EmptyString => EmptyString
  | String c rest => String (lowerUnit c) (lower rest)
  end.

(** [s] is [t] up to the case of its letters. *)
Definition sameUpToCase (s t : string) : Prop := lower s = lower t.

Definition isAlpha (c : ascii) : bool :=
  let n := Js.code c in
  ((65 <=? n) && (n <=? 90) || (97 <=? n) && (n <=? 122))%N.

Definition isSchemeChar (c : ascii) : bool :=
  let n := Js.code c in
  (isAlpha c || (48 <=? n) && (n <=? 57) || (n =? 43) || (n =? 45) || (n =? 46))%N.

Fixpoint schemeThenColon (s : string) : bool :=
  match s with
  | EmptyString => false
  | String c rest => Ascii.eqb c ":" || isSchemeChar c && schemeThenColon rest
  end.

(** An absolute URI begins with a scheme, a letter followed by letters,
    digits, [+], [-] or [.], and a colon (RFC 3986, 4.3).  A string
    without one is not an absolute URI. *)
Definition hasScheme (s : string) : bool :=
  match s with
  | EmptyString => false
  | String c rest => isAlpha c && schemeThenColon rest
  end.

End Spec.

(** ** Reading a run *)

(** The HTTP requests of a trace, in order. *)
Definition requests (t : list Effect) : list Request.t :=
  omap (λ ef, match ef with HttpFetch r => Some r | _ => None end) t.

(** The calls of the RDF parser in a trace: body, content type, base IRI. *)
Definition parserCalls (t : list Effect) : list (string * string * string) :=
  omap (λ ef, match ef with RdfParse b ct base => Some (b, ct, base) | _ => None end) t.

(** The effects of the ingestion stage: parsing, and building the store. *)
Definition isIngestion (ef : Effect) : bool :=
  match ef with
  | RdfParse _ _ _ | NewStore _ => true
  | _ => false
  end.

(** [name] is set in the environment, to the non-blank value [v]. *)
Definition present (w : World) (name v : string) : Prop :=
  env w !! name = Some v ∧ Spec.blank v = false.

(** [name] is absent from the environment, or set to a blank value. *)
Definition missing (w : World) (name : string) : Prop :=
  match env w !! name with
  | None => True
  | Some v => Spec.blank v = true
  end.

(** The environment yields the configuration [cfg]. *)
Definition Configured (w : World) (cfg : Spec.Configuration) : Prop :=
  present w "URL" (Spec.sourceUrl cfg) ∧
  present w "Query" (Spec.query cfg) ∧
  present w "STORE" (Spec.storeUrl cfg) ∧
  Js.toUpperCase (Js.orElse (env w !! "METHOD") "POST")
    = Spec.httpMethod (Spec.writeMethod cfg).

(** The run gets as far as the write: the parameters are read, the source
    is loaded, the query is evaluated to [quads] and the writer gives the
    text [ttl] for them. *)
Definition ReachesPublish (w : World) (cfg : Spec.Configuration)
    (quads : list Quad) (ttl : string) : Prop :=
  Configured w cfg ∧
  ∃ t store results,
    fetchRdfToStore w (Spec.sourceUrl cfg) = (t, Resolved store) ∧
    queryQuads w (Spec.query cfg) store = Resolved results ∧
    ending results = End ∧
    chunks results = quads ∧
    writer_end w quads = Resolved ttl.

(** The failures of the run, by the stage that raises them. *)
Inductive ConfigError : Thrown → Prop :=
| MissingParameter (name : string) :
    name ∈ ["URL"; "Query"; "STORE"] →
    ConfigError (Error ("Missing env var: " +:+ name))
| BadMethod (given : string) :
    ConfigError (Error ("METHOD must be PUT or POST (got: " +:+ given +:+ ")")).

Inductive FetchError : Thrown → Prop :=
| FetchFailed (status : N) (reason url : string) :
    FetchError (Error ("Failed to fetch RDF: " +:+ Js.show status +:+ " " +:+ reason
                         +:+ " (" +:+ url +:+ ")")).

Inductive PublishError : Thrown → Prop :=
| PublishFailed (status : N) (reason body : string) :
    PublishError (Error ("Failed to write to STORE: " +:+ Js.show status +:+ " " +:+ reason
                           +:+ Js.newline +:+ body)).

(** All 256 code units of the model. *)
Definition allUnits : list ascii := map ascii_of_nat (seq 0 256).

Definition isUpperLetter (c : ascii) : bool :=
  ((65 <=? Js.code c) && (Js.code c <=? 90))%N.

(** Upper-case ASCII letters, none of them an S next to another S: the
    shape of the two method names. *)
Fixpoint plainUpper (s : string) : bool :=
  match s with
  | EmptyString => true
  | String c rest =>
      isUpperLetter c
      && match rest with
         | String d _ => negb (Ascii.eqb c "S" && Ascii.eqb d "S")
         | EmptyString => true
         end
      && plainUpper rest
  end.

(** ** The Turtle writer *)

Module TurtleWriter.

(** The whitespace of Turtle: space, tab, carriage return and line feed. *)
Definition isBlank (c : ascii) : bool :=
  let n := Js.code c in
  ((n =? 32) || (n =? 9) || (n =? 13) || (n =? 10))%N.

Definition isEndOfLine (c : ascii) : bool :=
  let n := Js.code c in
  ((n =? 10) || (n =? 13))%N.

(** Whether a text holds nothing but Turtle whitespace and comments, a
    comment running from [#] to the end of its line.  [inComment] tells
    whether the text starts inside a comment. *)
Fixpoint statementFreeFrom (inComment : bool) (s : string) : bool :=
  match s with
  | EmptyString => true
  | String c rest =>
      if inComment then statementFreeFrom (negb (isEndOfLine c)) rest
      else if isBlank c then statementFreeFrom false rest
      else if Ascii.eqb c "#" then statementFreeFrom true rest
      else false
  end.

(** A Turtle document without any statement.  A Turtle document is a
    sequence of any number of statements, none included, with whitespace
    and comments between them (production [turtleDoc] of the grammar), so
    such a text is a syntactically valid document; it is the empty or
    near-empty document. *)
Definition statementFree (s : string) : bool := statementFreeFrom false s.

(** Modelled from the spec: the Turtle writer, the [Writer] of N3, which
    [quadsToTurtle] calls and which is not under [src/].  Section 4.5
    gives its contract: given any finite sequence of quads, including the
    empty sequence, it produces valid Turtle text, an empty or near-empty
    document when the input is empty.  Accordingly a writer always gives
    a text, and for the empty sequence a document without statements. *)
Record t := {
  serialize : list Quad → string;
  serialize_nil : statementFree (serialize []) = true;
}.

End TurtleWriter.

(** The world [w] with the writer [writer] as its Turtle writer. *)
Definition withWriter (w : World) (writer : TurtleWriter.t) : World :=
  {| env := env w;
     fetch := fetch w;
     rdfParser_parse := rdfParser_parse w;
     store_size := store_size w;
     queryQuads := queryQuads w;
     writer_end := λ quads, Resolved (TurtleWriter.serialize writer quads) |}.

(** ** Sample worlds *)

Module Example.

Definition triple : Quad :=
  {| subject := NamedNode "a"; predicate := NamedNode "b";
     object := NamedNode "c"; graph := DefaultGraph |}.

Definition ttl : string := "<a> <b> <c> .".

Definition vars : gmap string string :=
  {[ "URL" := "https://example.org/data.ttl";
     "Query" := "CONSTRUCT {?s ?p ?o} WHERE {?s ?p ?o}";
     "STORE" := "https://example.org/store" ]}.

(** Relative references in place of the two URIs. *)
Definition relativeVars : gmap string string :=
  {[ "URL" := "data.ttl";
     "Query" := "CONSTRUCT {?s ?p ?o} WHERE {?s ?p ?o}";
     "STORE" := "store" ]}.

Definition served : Response.t :=
  {| Response.status := 200; Response.statusText := "OK";
     Response.headers := {[ "content-type" := " text/turtle ; charset=utf-8" ]};
     Response.body := Some ttl; Response.text := Resolved ttl |}.

Definition created : Response.t :=
  {| Response.status := 201; Response.statusText := "Created";
     Response.headers := ∅;
     Response.body := Some ""; Response.text := Resolved "" |}.

Definition notFound : Response.t :=
  {| Response.status := 404; Response.statusText := "Not Found";
     Response.headers := ∅;
     Response.body := Some "no such graph"; Response.text := Resolved "no such graph" |}.

Definition refused : Response.t :=
  {| Response.status := 403; Response.statusText := "Forbidden";
     Response.headers := ∅;
     Response.body := Some "read-only store"; Response.text := Resolved "read-only store" |}.

Definition broken : Response.t :=
  {| Response.status := 502; Response.statusText := "Bad Gateway";
     Response.headers := ∅;
     Response.body := Some ""; Response.text := Rejected (Other "terminated") |}.

(** A world with the given environment, in which the source answers
    [source], the store answers [store], the parser reads one triple and
    the query yields [results].  As in Node, [fetch] rejects with a
    [TypeError] when the url cannot be parsed for want of a scheme. *)
Definition world (vars : gmap string string) (source store : Response.t)
    (results : list Quad) : World :=
  {| env := vars;
     fetch := λ request,
       if negb (Spec.hasScheme (Request.url request)) then
         Rejected (Other "TypeError: Failed to parse URL")
       else
         match Request.method request with
         | None => Resolved source
         | Some _ => Resolved store
         end;
     rdfParser_parse := λ _ _ _, {| chunks := [triple]; ending := End |};
     store_size := λ store, N.of_nat (length (added store));
     queryQuads := λ _ _, Resolved {| chunks := results; ending := End |};
     writer_end := λ quads, Resolved (match quads with [] => "" | _ => ttl end) |}.

Definition append : Spec.Configuration :=
  {| Spec.sourceUrl := "https://example.org/data.ttl";
     Spec.query := "CONSTRUCT {?s ?p ?o} WHERE {?s ?p ?o}";
     Spec.storeUrl := "https://example.org/store";
     Spec.writeMethod := Spec.APPEND |}.

Definition replace : Spec.Configuration :=
  {| Spec.sourceUrl := "https://example.org/data.ttl";
     Spec.query := "CONSTRUCT {?s ?p ?o} WHERE {?s ?p ?o}";
     Spec.storeUrl := "https://example.org/store";
     Spec.writeMethod := Spec.REPLACE |}.

Definition relative : Spec.Configuration :=
  {| Spec.sourceUrl := "data.ttl";
     Spec.query := "CONSTRUCT {?s ?p ?o} WHERE {?s ?p ?o}";
     Spec.storeUrl := "store";
     Spec.writeMethod := Spec.APPEND |}.

End Example.

(** A writer that gives the empty document for no quads, and the sample
    text for any others. *)
Definition sampleWriter : TurtleWriter.t :=
  {| TurtleWriter.serialize := λ quads, match quads with [] => "" | _ => Example.ttl end;
     TurtleWriter.serialize_nil := eq_refl |}.

(** ** The process around [main] *)

(** [absentOrBlank w name]: the test of [mustEnv] on the parameter [name]. *)
Definition absentOrBlank (w : World) (name : string) : bool :=
  match env w !! name with
  | None => true
  | Some v => Spec.blank v
  end.

(** The first of the required parameters, in the order in which [main]
    reads them, that is absent or blank. *)
Definition firstMissing (w : World) : option string :=
  find (absentOrBlank w) ["URL"; "Query"; "STORE"].

(** Lines 111 to 114: [main().catch(...)].  A rejection of [main] is
    printed on one line and the process is ended with [process.exit(1)];
    when [main] resolves nothing more is done.  The text of
    [e?.stack || e] is the host's, and is given by [rendering].  The
    second component is the argument of [process.exit], if it is called. *)
Definition program (w : World) (rendering : Thrown → string) : list Effect * option N :=
  match main w with
  | (t, Resolved _) => (t, None)
  | (t, Rejected e) => (t ++ [ConsoleError ("ERROR: " +:+ rendering e)], Some 1%N)
  end.

(** Worlds in which a collaborator fails. *)
Module Faulty.

(** The environment of [Example.vars]; the source and the store answer as
    given, the parser emits [parsed], the engine answers [answer] and the
    writer gives [written]. *)
Definition world (source store : Outcome Response.t) (parsed : Stream Quad)
    (answer : Outcome (Stream Quad)) (written : Outcome string) : World :=
  {| env := Example.vars;
     fetch := λ request,
       match Request.method request with
       | None => source
       | Some _ => store
       end;
     rdfParser_parse := λ _ _ _, parsed;
     store_size := λ store, N.of_nat (length (added store));
     queryQuads := λ _ _, answer;
     writer_end := λ _, written |}.

(** An environment without STORE, with a blank Query and with a METHOD
    that is not acceptable. *)
Definition incomplete : gmap string string :=
  <["METHOD" := "DELETE"]> (delete "STORE" (<["Query" := " "]> Example.vars)).

Definition one : Stream Quad := {| chunks := [Example.triple]; ending := End |}.

Definition truncated : Stream Quad :=
  {| chunks := [Example.triple]; ending := Failed (Error "Unexpected end of input") |}.

Definition noContent : Response.t :=
  {| Response.status := 204; Response.statusText := "No Content";
     Response.headers := ∅;
     Response.body := None; Response.text := Resolved "" |}.

End Faulty.

(** ** Tactics *)

(** Symbolic execution of a run whose next step is known. *)
Ltac exec :=
  cbn [mbind run_bind mret run_ret throw catch trace outcome fst snd app negb].

(** ** The operations at work *)

Example trim_media_type : Js.trim "  text/turtle  " = "text/turtle".
Proof. reflexivity. Qed.

Example split_parameters :
  Js.split ";" "text/turtle; charset=utf-8; q=1" = ["text/turtle"; " charset=utf-8"; " q=1"].
Proof. reflexivity. Qed.

Example split_empty : Js.split ";" "" = [""].
Proof. reflexivity. Qed.

Example toUpperCase_mixed : Js.toUpperCase "poSt" = "POST".
Proof. reflexivity. Qed.

Example toUpperCase_sharp_s :
  Js.toUpperCase (String "p" (String "o" (String "223" "t"))) = "POSST".
Proof. reflexivity. Qed.

Example show_status : Js.show 404 = "404".
Proof. by vm_compute. Qed.

Example hasScheme_https : Spec.hasScheme "https://example.org/store" = true.
Proof. reflexivity. Qed.

(** ** Strings *)

Section Strings.

Import Spec.

Lemma app_empty_l (s : string) : "" +:+ s = s.
Proof. reflexivity. Qed.

Lemma app_String (c : ascii) (s t : string) : String c s +:+ t = String c (s +:+ t).
Proof. reflexivity. Qed.

Lemma app_empty_r (s : string) : s +:+ "" = s.
Proof.
  induction s as [|c s IH]; [done|]. by rewrite app_String, IH.
Qed.

Lemma blank_app (s t : string) : blank (s +:+ t) = blank s && blank t.
Proof.
  induction s as [|c s IH]; [reflexivity|].
  rewrite app_String. simpl. rewrite IH. by rewrite andb_assoc.
Qed.

Lemma trimStart_blank (s : string) : blank s = true → Js.trimStart s = "".
Proof.
  induction s as [|c s IH]; [done|]. simpl.
  intros [Hc Hs]%andb_true_iff. rewrite Hc. auto.
Qed.

Lemma trimStart_spec (s : string) :
  ∃ before, s = before +:+ Js.trimStart s ∧ blank before = true
            ∧ startsWithSpace (Js.trimStart s) = false.
Proof.
  induction s as [|c s (before & Hs & Hb & Hst)].
  - by exists "".
  - simpl. destruct (Js.isWhiteSpace c) eqn:Hc.
    + exists (String c before). rewrite app_String, <- Hs. simpl. by rewrite Hc.
    + exists "". by rewrite app_empty_l.
Qed.

Lemma trimEnd_spec (s : string) :
  ∃ after, s = Js.trimEnd s +:+ after ∧ blank after = true
           ∧ endsWithSpace (Js.trimEnd s) = false.
Proof.
  induction s as [|c s (after & Hs & Hb & He)].
  - by exists "".
  - simpl. destruct (Js.trimEnd s) as [|d kept] eqn:Hk.
    + rewrite app_empty_l in Hs. subst after.
      destruct (Js.isWhiteSpace c) eqn:Hc.
      * exists (String c s). rewrite app_empty_l. simpl. by rewrite Hc.
      * exists s. by rewrite app_String, app_empty_l.
    + exists after. by rewrite app_String, <- Hs.
Qed.

Lemma trimEnd_starts (s : string) :
  startsWithSpace s = false → startsWithSpace (Js.trimEnd s) = false.
Proof.
  destruct s as [|c s]; [done|]. simpl. intros Hc.
  destruct (Js.trimEnd s); [by rewrite Hc|done].
Qed.

(** [trim] removes exactly the surrounding whitespace. *)
Lemma trim_spec (s : string) : Trimmed s (Js.trim s).
Proof.
  unfold Js.trim.
  destruct (trimStart_spec s) as (before & Hs & Hb & Hst).
  destruct (trimEnd_spec (Js.trimStart s)) as (after & Ht & Ha & He).
  exists before, after. repeat split; auto using trimEnd_starts.
  by rewrite <- Ht.
Qed.

(** [trim] yields the empty string exactly on blank strings. *)
Lemma trim_empty_iff (s : string) : Js.trim s = "" ↔ blank s = true.
Proof.
  split.
  - intros Ht. destruct (trim_spec s) as (before & after & Hs & Hb & Ha & _).
    rewrite Ht, app_empty_l in Hs. rewrite Hs, blank_app, Hb, Ha. done.
  - intros Hb. unfold Js.trim. by rewrite trimStart_blank.
Qed.

Lemma trim_eqb_blank (s : string) : String.eqb (Js.trim s) "" = blank s.
Proof.
  destruct (blank s) eqn:Hb.
  - apply String.eqb_eq. by apply trim_empty_iff.
  - apply String.eqb_neq. intros Ht%trim_empty_iff. congruence.
Qed.

Lemma eqb_empty_blank (s : string) : String.eqb s "" = true → blank s = true.
Proof. by intros ->%String.eqb_eq. Qed.

(** The first piece of [split] is what stands before the first separator. *)
Lemma split_first (s : string) :
  ∃ p pieces, Js.split ";" s = p :: pieces ∧ WithoutParameters s p.
Proof.
  induction s as [|c s (p & pieces & Hsp & Hno & Hs)].
  - exists "", []. repeat split. by left.
  - simpl. destruct (Ascii.eqb c ";") eqn:Hc.
    + apply Ascii.eqb_eq in Hc as ->.
      exists "", (Js.split ";" s). repeat split. right. by exists s.
    + rewrite Hsp. exists (String c p), pieces. repeat split.
      * simpl. by rewrite Hc, Hno.
      * destruct Hs as [->|(parameters & ->)]; [by left|right].
        by exists parameters.
Qed.

Lemma trimStart_app_blank (b x : string) :
  blank b = true → Js.trimStart (b +:+ x) = Js.trimStart x.
Proof.
  induction b as [|c b IH]; [done|]. rewrite app_String. simpl.
  intros [Hc Hb]%andb_true_iff. rewrite Hc. auto.
Qed.

Lemma trimEnd_blank (a : string) : blank a = true → Js.trimEnd a = "".
Proof.
  induction a as [|c a IH]; [done|]. simpl.
  intros [Hc Ha]%andb_true_iff. by rewrite IH, Hc.
Qed.

Lemma trimEnd_app_blank (r a : string) :
  blank a = true → endsWithSpace r = false → Js.trimEnd (r +:+ a) = r.
Proof.
  intros Ha. induction r as [|c r IH]; intros He.
  - rewrite app_empty_l. by apply trimEnd_blank.
  - rewrite app_String. cbn [Js.trimEnd]. destruct r as [|d r].
    + rewrite app_empty_l, trimEnd_blank by done. simpl in He. by rewrite He.
    + by rewrite IH.
Qed.

(** What [Trimmed] describes is the result of [trim], and nothing else. *)
Lemma Trimmed_trim (s r : string) : Trimmed s r → Js.trim s = r.
Proof.
  intros (before & after & -> & Hb & Ha & Hs & He). unfold Js.trim.
  rewrite trimStart_app_blank by done. destruct r as [|c r].
  - rewrite app_empty_l, trimStart_blank by done. done.
  - rewrite app_String. simpl in Hs |- *. rewrite Hs, <- app_String.
    by apply trimEnd_app_blank.
Qed.

Lemma split_prefix (p tail : string) :
  mentions ";" p = false →
  tail = "" ∨ (∃ rest, tail = String ";" rest) →
  ∃ pieces, Js.split ";" (p +:+ tail) = p :: pieces.
Proof.
  intros Hno Htail. induction p as [|c p IH].
  - rewrite app_empty_l. destruct Htail as [->|[rest ->]]; by eexists.
  - simpl in Hno. apply orb_false_iff in Hno as [Hc Hno].
    destruct (IH Hno) as [pieces Hp].
    rewrite app_String. simpl. rewrite Hc, Hp. by eexists.
Qed.

(** What [WithoutParameters] describes is the first piece of [split]. *)
Lemma WithoutParameters_split (h p : string) :
  WithoutParameters h p → Js.split ";" h !! 0%nat = Some p.
Proof.
  intros [Hno [->|[parameters ->]]].
  - destruct (split_prefix p "" Hno) as [pieces Hp]; [by left|].
    rewrite app_empty_r in Hp. by rewrite Hp.
  - destruct (split_prefix p (String ";" parameters) Hno) as [pieces Hp]; [by eauto|].
    by rewrite Hp.
Qed.

(** A property that is checked on each of the 256 code units holds of
    every code unit. *)
Lemma forall_units (P : ascii → bool) :
  forallb P allUnits = true → ∀ c, P c = true.
Proof.
  intros H c. rewrite forallb_forall in H. apply H.
  rewrite <- (ascii_nat_embedding c). apply in_map, in_seq.
  pose proof (nat_ascii_bounded c). lia.
Qed.

Lemma upperUnit_cases (c : ascii) :
  Js.upperUnit c = "SS" ∨ ∃ u, Js.upperUnit c = String u "".
Proof. unfold Js.upperUnit. repeat case_match; eauto. Qed.

(** A code unit whose upper case is an ASCII letter is that letter or its
    lower case. *)
Lemma upperUnit_letter (c u : ascii) :
  Js.upperUnit c = String u "" → isUpperLetter u = true →
  lowerUnit c = lowerUnit u.
Proof.
  intros Hc Hu.
  set (P := λ c, match Js.upperUnit c with
                 | String u EmptyString =>
                     implb (isUpperLetter u) (Ascii.eqb (lowerUnit c) (lowerUnit u))
                 | _ => true
                 end).
  assert (forallb P allUnits = true) as H by (vm_compute; reflexivity).
  apply forall_units with (c := c) in H. unfold P in H.
  rewrite Hc, Hu in H. by apply Ascii.eqb_eq.
Qed.

Lemma lowerUnit_letter (c u : ascii) :
  lowerUnit c = lowerUnit u → isUpperLetter u = true →
  Js.upperUnit c = String u "".
Proof.
  intros Hc Hu.
  set (P := λ u c, implb (isUpperLetter u && Ascii.eqb (lowerUnit c) (lowerUnit u))
                         (String.eqb (Js.upperUnit c) (String u ""))).
  assert (forallb (λ u, forallb (P u) allUnits) allUnits = true) as H
    by (vm_compute; reflexivity).
  apply forall_units with (c := u) in H.
  apply forall_units with (c := c) in H. unfold P in H.
  rewrite Hu, Hc, Ascii.eqb_refl in H. by apply String.eqb_eq.
Qed.

Lemma toUpperCase_plain (v T : string) :
  plainUpper T = true → Js.toUpperCase v = T → lower v = lower T.
Proof.
  revert T. induction v as [|c v IH]; intros T HT <-; [done|].
  simpl in *. destruct (upperUnit_cases c) as [HSS|[u Hu]].
  - rewrite HSS in HT. by vm_compute in HT.
  - rewrite Hu, app_String, app_empty_l in HT |- *. simpl in HT.
    apply andb_true_iff in HT as [[Hup _]%andb_true_iff Hrest].
    simpl. f_equal; [by apply upperUnit_letter|by apply IH].
Qed.

Lemma lower_plain (v T : string) :
  plainUpper T = true → lower v = lower T → Js.toUpperCase v = T.
Proof.
  revert T. induction v as [|c v IH]; intros [|u T] HT Hl; try done.
  simpl in *. injection Hl as Hc Hv.
  apply andb_true_iff in HT as [[Hup _]%andb_true_iff Hrest].
  rewrite (lowerUnit_letter c u Hc Hup), (IH T Hrest Hv). done.
Qed.

(** The test of [main] on the upper-cased method holds exactly of PUT and
    POST in any mix of upper and lower case. *)
Lemma includes_methods (v : string) :
  Js.includes ["PUT"; "POST"] (Js.toUpperCase v) = true
  ↔ sameUpToCase v "PUT" ∨ sameUpToCase v "POST".
Proof.
  unfold Js.includes, sameUpToCase. cbn [existsb].
  rewrite orb_false_r, orb_true_iff, !String.eqb_eq.
  split; (intros [H|H]; [left|right]);
    first [ by apply toUpperCase_plain | by apply lower_plain ].
Qed.

End Strings.

(** ** Runs *)

Section Runs.

Context {A B : Type}.
Implicit Types (k : A → Run B) (t : list Effect).

Lemma bind_resolved t (a : A) k :
  ((t, Resolved a) : Run A) ≫= k = (t ++ trace (k a), outcome (k a)).
Proof. reflexivity. Qed.

Lemma bind_mret (a : A) k : mret a ≫= k = k a.
Proof. unfold mret, run_ret. rewrite bind_resolved. by destruct (k a). Qed.

End Runs.

Lemma requests_app (t u : list Effect) : requests (t ++ u) = requests t ++ requests u.
Proof. apply omap_app. Qed.

Lemma requests_cons (ef : Effect) (t : list Effect) :
  requests (ef :: t) =
    match ef with HttpFetch r => [r] | _ => [] end ++ requests t.
Proof. by destruct ef. Qed.

Ltac count_requests :=
  cbn [trace fst]; repeat (rewrite requests_cons || rewrite requests_app).

Lemma streamToArray_items {A} (s : Stream A) :
  foldl (λ items item, items ++ [item]) [] (chunks s) = chunks s.
Proof.
  generalize (chunks s). intros l.
  enough (∀ acc, foldl (λ (items : list A) (item : A), items ++ [item]) acc l = acc ++ l)
    as H by apply (H []).
  induction l as [|x l IH]; intros acc; simpl; [by rewrite app_nil_r|].
  by rewrite IH, <- app_assoc.
Qed.

(** [streamToArray] resolves with the items of a stream that ends, and
    rejects with the error of a stream that fails. *)
Lemma streamToArray_spec {A} (s : Stream A) :
  streamToArray s =
    match ending s with
    | End => ([], Resolved (chunks s))
    | Failed reason => ([], Rejected reason)
    end.
Proof. unfold streamToArray. rewrite streamToArray_items. by destruct (ending s). Qed.

(** [ok] in terms of the status code. *)
Lemma ok_iff (r : Response.t) :
  Response.ok r = true ↔ (200 ≤ Response.status r ≤ 299)%N.
Proof. unfold Response.ok. rewrite andb_true_iff, !N.leb_le. tauto. Qed.

Lemma not_ok (r : Response.t) :
  ¬ (200 ≤ Response.status r ≤ 299)%N → Response.ok r = false.
Proof. rewrite <- ok_iff. by destruct (Response.ok r). Qed.

(** The content type the code computes is the negotiated one. *)
Lemma contentTypeOf_negotiated (res : Response.t) :
  Spec.Negotiated (Response.get res "content-type") (contentTypeOf res).
Proof.
  unfold contentTypeOf. destruct (Response.get res "content-type") as [h|]; [|done].
  destruct (split_first h) as (p & pieces & Hsp & Hp). simpl. rewrite Hsp. simpl.
  exists p, (Js.trim p). split_and!; [done|apply trim_spec|].
  case_decide as Hr.
  - by rewrite Hr.
  - by apply String.eqb_neq in Hr as ->.
Qed.

(** The negotiated content type is determined by the header. *)
Lemma Negotiated_contentTypeOf (res : Response.t) (contentType : string) :
  Spec.Negotiated (Response.get res "content-type") contentType →
  contentType = contentTypeOf res.
Proof.
  unfold contentTypeOf. destruct (Response.get res "content-type") as [h|]; [|done].
  intros (p & r & Hp%WithoutParameters_split & <-%Trimmed_trim & ->).
  simpl. rewrite Hp. simpl. case_decide as Hr.
  - by rewrite Hr.
  - by apply String.eqb_neq in Hr as ->.
Qed.

(** ** The source fetch *)

Section Fetch.

Variable w : World.
Variable url : string.

(** What [fetchRdfToStore] does, by the answer of the source. *)
Lemma fetchRdfToStore_run :
  fetchRdfToStore w url =
    match fetch w (sourceRequest url) with
    | Rejected e => ([HttpFetch (sourceRequest url)], Rejected e)
    | Resolved res =>
        if Response.ok res then
          match Response.body res with
          | None => ([HttpFetch (sourceRequest url)],
                     Rejected (Other "TypeError [ERR_INVALID_ARG_TYPE]"))
          | Some b =>
              let quadStream := rdfParser_parse w b (contentTypeOf res) url in
              match ending quadStream with
              | Failed e =>
                  ([HttpFetch (sourceRequest url); RdfParse b (contentTypeOf res) url],
                   Rejected e)
              | End =>
                  ([HttpFetch (sourceRequest url); RdfParse b (contentTypeOf res) url;
                    NewStore (chunks quadStream)],
                   Resolved {| added := chunks quadStream |})
              end
          end
        else
          ([HttpFetch (sourceRequest url)],
           Rejected (Error ("Failed to fetch RDF: " +:+ Js.show (Response.status res)
                              +:+ " " +:+ Response.statusText res
                              +:+ " (" +:+ url +:+ ")")))
    end.
Proof.
  unfold fetchRdfToStore, perform.
  destruct (fetch w (sourceRequest url)) as [res|e]; [|done].
  rewrite bind_resolved.
  destruct (Response.ok res); [|done]. simpl negb. cbv iota.
  destruct (Response.body res) as [b|]; [|done]. simpl fromWeb.
  rewrite bind_mret, bind_resolved, streamToArray_spec.
  by destruct (ending _).
Qed.

Lemma fetchRdfToStore_requests :
  requests (trace (fetchRdfToStore w url)) = [sourceRequest url].
Proof. rewrite fetchRdfToStore_run. cbv zeta. repeat case_match; done. Qed.

Lemma fetchRdfToStore_first :
  ∃ later, trace (fetchRdfToStore w url) = HttpFetch (sourceRequest url) :: later.
Proof. rewrite fetchRdfToStore_run. cbv zeta. repeat case_match; by eexists. Qed.

End Fetch.

(** ** Reading the parameters *)

Lemma mustEnv_present (w : World) (name v : string) :
  present w name v → mustEnv w name = mret v.
Proof.
  intros [Hv Hb]. unfold mustEnv. rewrite Hv, trim_eqb_blank, Hb, orb_false_r.
  destruct (String.eqb v "") eqn:He; [|done].
  apply eqb_empty_blank in He. congruence.
Qed.

Lemma mustEnv_missing (w : World) (name : string) :
  Js.inherited name = false →
  missing w name → mustEnv w name = throw (Error ("Missing env var: " +:+ name)).
Proof.
  intros Hname. unfold missing, mustEnv.
  destruct (env w !! name) as [v|]; [|by rewrite Hname].
  intros Hb. by rewrite trim_eqb_blank, Hb, orb_true_r.
Qed.

Lemma present_or_missing (w : World) (name : string) :
  (∃ v, present w name v) ∨ missing w name.
Proof.
  unfold present, missing. destruct (env w !! name) as [v|]; [|by right].
  destruct (Spec.blank v) eqn:Hb; [by right|left; by exists v].
Qed.

Lemma present_not_missing (w : World) (name v : string) :
  present w name v → ¬ missing w name.
Proof. unfold present, missing. intros [-> Hb]. congruence. Qed.

(** Reading the three required parameters, when they are there. *)
Ltac read_parameters HU HQ HS :=
  unfold main;
  rewrite (mustEnv_present _ _ _ HU), bind_mret,
          (mustEnv_present _ _ _ HQ), bind_mret,
          (mustEnv_present _ _ _ HS), bind_mret;
  cbv zeta.

(** The run of [main] in a configured environment: what is left is the
    stages, lines 77 to 108. *)
Ltac configured H :=
  let HU := fresh "HU" in let HQ := fresh "HQ" in
  let HS := fresh "HS" in let HM := fresh "HM" in
  destruct H as (HU & HQ & HS & HM);
  read_parameters HU HQ HS; rewrite HM;
  replace (Js.includes ["PUT"; "POST"] (Spec.httpMethod _)) with true
    by (by destruct (Spec.writeMethod _));
  simpl negb; cbv iota;
  unfold console_error, quadsToTurtle, perform.

Section Resolution.

Variable w : World.

Lemma missing_URL :
  missing w "URL" → main w = throw (Error ("Missing env var: " +:+ "URL")).
Proof. intros H. unfold main. by rewrite (mustEnv_missing w "URL" eq_refl H). Qed.

Lemma missing_Query (URL : string) :
  present w "URL" URL → missing w "Query" →
  main w = throw (Error ("Missing env var: " +:+ "Query")).
Proof.
  intros HU H. unfold main.
  by rewrite (mustEnv_present _ _ _ HU), bind_mret, (mustEnv_missing w "Query" eq_refl H).
Qed.

Lemma missing_STORE (URL QUERY : string) :
  present w "URL" URL → present w "Query" QUERY → missing w "STORE" →
  main w = throw (Error ("Missing env var: " +:+ "STORE")).
Proof.
  intros HU HQ H. unfold main.
  by rewrite (mustEnv_present _ _ _ HU), bind_mret,
             (mustEnv_present _ _ _ HQ), bind_mret, (mustEnv_missing w "STORE" eq_refl H).
Qed.

Lemma bad_METHOD (URL QUERY STORE : string) :
  present w "URL" URL → present w "Query" QUERY → present w "STORE" STORE →
  Js.includes ["PUT"; "POST"] (Js.toUpperCase (Js.orElse (env w !! "METHOD") "POST")) = false →
  main w = throw (Error ("METHOD must be PUT or POST (got: "
                           +:+ Js.toUpperCase (Js.orElse (env w !! "METHOD") "POST")
                           +:+ ")")).
Proof. intros HU HQ HS H. read_parameters HU HQ HS. by rewrite H. Qed.

(** Either a required parameter is missing and [main] throws at once,
    naming the first one that is, or all three are there. *)
Lemma required_cases :
  (∃ name, name ∈ ["URL"; "Query"; "STORE"] ∧ missing w name ∧
           main w = throw (Error ("Missing env var: " +:+ name)))
  ∨ (∃ URL QUERY STORE,
       present w "URL" URL ∧ present w "Query" QUERY ∧ present w "STORE" STORE).
Proof.
  destruct (present_or_missing w "URL") as [[URL HU]|HU].
  2: { left. exists "URL". split_and!; [set_solver|done|by apply missing_URL]. }
  destruct (present_or_missing w "Query") as [[QUERY HQ]|HQ].
  2: { left. exists "Query". split_and!; [set_solver|done|by eapply missing_Query]. }
  destruct (present_or_missing w "STORE") as [[STORE HS]|HS].
  2: { left. exists "STORE". split_and!; [set_solver|done|by eapply missing_STORE]. }
  right. by exists URL, QUERY, STORE.
Qed.

(** Resolution of the parameters either yields a configuration, or fails
    before any effect. *)
Lemma resolution_cases :
  (∃ cfg, Configured w cfg) ∨ (∃ e, ConfigError e ∧ main w = throw e).
Proof.
  destruct required_cases as [(name & Hin & _ & Hm)|(URL & QUERY & STORE & HU & HQ & HS)].
  { right. eexists. split; [|exact Hm]. by constructor. }
  destruct (Js.includes ["PUT"; "POST"]
              (Js.toUpperCase (Js.orElse (env w !! "METHOD") "POST"))) eqn:HM.
  - left. unfold Js.includes in HM. cbn [existsb] in HM.
    rewrite orb_false_r, orb_true_iff, !String.eqb_eq in HM.
    destruct HM as [HM|HM].
    + by exists {| Spec.sourceUrl := URL; Spec.query := QUERY; Spec.storeUrl := STORE;
                   Spec.writeMethod := Spec.REPLACE |}.
    + by exists {| Spec.sourceUrl := URL; Spec.query := QUERY; Spec.storeUrl := STORE;
                   Spec.writeMethod := Spec.APPEND |}.
  - right. eexists. split; [|by eapply bad_METHOD]. constructor.
Qed.

(** A method that is set, not empty and neither PUT nor POST fails the test. *)
Lemma unknown_method (v : string) :
  env w !! "METHOD" = Some v → v ≠ "" →
  ¬ Spec.sameUpToCase v "PUT" → ¬ Spec.sameUpToCase v "POST" →
  Js.includes ["PUT"; "POST"] (Js.toUpperCase (Js.orElse (env w !! "METHOD") "POST")) = false.
Proof.
  intros -> Hv HPUT HPOST. simpl Js.orElse.
  apply String.eqb_neq in Hv as ->.
  apply not_true_is_false. rewrite includes_methods. tauto.
Qed.

(** An absent or empty method stands for POST. *)
Lemma default_method :
  env w !! "METHOD" = None ∨ env w !! "METHOD" = Some "" →
  Js.toUpperCase (Js.orElse (env w !! "METHOD") "POST") = "POST".
Proof. by intros [-> | ->]. Qed.

End Resolution.

(** ** The stages *)

Section Stages.

Variable w : World.
Variable cfg : Spec.Configuration.

(** A run that reaches the write, spelled out by the answer of the store. *)
Lemma main_publish (quads : list Quad) (ttl : string) :
  ReachesPublish w cfg quads ttl →
  ∃ before,
    requests before = [sourceRequest (Spec.sourceUrl cfg)] ∧
    main w =
      let request :=
        writeRequest (Spec.storeUrl cfg) (Spec.httpMethod (Spec.writeMethod cfg)) ttl in
      let sofar := before ++ [HttpFetch request] in
      match fetch w request with
      | Rejected e => (sofar, Rejected e)
      | Resolved writeRes =>
          if Response.ok writeRes then
            (sofar ++ [ConsoleError "[3/3] Done."], Resolved tt)
          else
            (sofar ++ [ReadText writeRes],
             Rejected
               (Error ("Failed to write to STORE: "
                         +:+ Js.show (Response.status writeRes) +:+ " "
                         +:+ Response.statusText writeRes +:+ Js.newline
                         +:+ match Response.text writeRes with
                             | Resolved body => body
                             | Rejected _ => ""
                             end)))
      end.
Proof.
  intros (Hcfg & t & store & results & Hload & Hquery & Hend & Hquads & Httl).
  exists ([ConsoleError ("[1/3] Fetching RDF from: " +:+ Spec.sourceUrl cfg)] ++ t
          ++ [ConsoleError ("[1/3] Loaded quads: " +:+ Js.show (store_size w store));
              ConsoleError "[2/3] Evaluating SPARQL query...";
              QueryQuads (Spec.query cfg) store;
              ConsoleError ("[2/3] Result quads: " +:+ Js.show (N.of_nat (length quads)));
              WriteTurtle quads;
              ConsoleError ("[3/3] Writing results to store: " +:+ Spec.storeUrl cfg
                              +:+ " (METHOD=" +:+ Spec.httpMethod (Spec.writeMethod cfg)
                              +:+ ")")]).
  split.
  { rewrite !requests_app.
    pose proof (fetchRdfToStore_requests w (Spec.sourceUrl cfg)) as Hr.
    rewrite Hload in Hr. simpl in Hr. by rewrite Hr. }
  configured Hcfg. rewrite Hload. exec.
  rewrite Hquery. exec. rewrite streamToArray_spec, Hend, Hquads. exec.
  rewrite Httl. exec.
  destruct (fetch w _) as [writeRes|e]; exec.
  2: { f_equal. by rewrite <- !app_assoc. }
  destruct (Response.ok writeRes); exec.
  { f_equal. by rewrite <- !app_assoc. }
  destruct (Response.text writeRes) as [body|e]; exec.
  all: f_equal; by rewrite <- !app_assoc.
Qed.

(** Whatever the world answers, a configured run issues the source request
    and then at most one request more, the write. *)
Lemma main_requests :
  Configured w cfg →
  requests (trace (main w)) = [sourceRequest (Spec.sourceUrl cfg)]
  ∨ ∃ ttl,
      requests (trace (main w)) =
        [ sourceRequest (Spec.sourceUrl cfg);
          writeRequest (Spec.storeUrl cfg) (Spec.httpMethod (Spec.writeMethod cfg)) ttl ].
Proof.
  intros Hcfg.
  pose proof (fetchRdfToStore_requests w (Spec.sourceUrl cfg)) as Hr.
  destruct (fetchRdfToStore w (Spec.sourceUrl cfg)) as [t [store|e]] eqn:Hload;
    simpl in Hr.
  2: { left. pose proof Hcfg as H. configured H. rewrite Hload. exec.
       count_requests. by rewrite Hr. }
  destruct (queryQuads w (Spec.query cfg) store) as [results|e] eqn:Hquery.
  2: { left. pose proof Hcfg as H. configured H. rewrite Hload. exec.
       rewrite Hquery. exec. count_requests. by rewrite Hr. }
  destruct (ending results) as [|e] eqn:Hend.
  2: { left. pose proof Hcfg as H. configured H. rewrite Hload. exec.
       rewrite Hquery. exec. rewrite streamToArray_spec, Hend. exec.
       count_requests. by rewrite Hr. }
  destruct (writer_end w (chunks results)) as [ttl|e] eqn:Httl.
  2: { left. pose proof Hcfg as H. configured H. rewrite Hload. exec.
       rewrite Hquery. exec. rewrite streamToArray_spec, Hend. exec.
       rewrite Httl. exec. count_requests. by rewrite Hr. }
  right. exists ttl.
  destruct (main_publish (chunks results) ttl) as (before & Hb & ->).
  { split; [done|]. by exists t, store, results. }
  cbv zeta. repeat case_match; count_requests; by rewrite Hb.
Qed.

End Stages.

(** ** The properties of the specification *)

(** C1. In every run that reaches the write, the requests of the whole run
    are the source request and then exactly one request to the store: PUT
    when the write method is REPLACE, POST when it is APPEND, with header
    [content-type: text/turtle] and with the Turtle text the writer gave
    for the result quads as its body. *)
Theorem publish_issues_one_write_request (w : World) (cfg : Spec.Configuration)
    (quads : list Quad) (ttl : string) :
  ReachesPublish w cfg quads ttl →
  requests (trace (main w)) =
    [ sourceRequest (Spec.sourceUrl cfg);
      {| Request.url := Spec.storeUrl cfg;
         Request.method :=
           Some (match Spec.writeMethod cfg with
                 | Spec.REPLACE => "PUT"
                 | Spec.APPEND => "POST"
                 end);
         Request.headers := [("content-type", "text/turtle")];
         Request.body := Some ttl |} ].
Proof.
  intros (before & Hb & ->)%main_publish. cbv zeta.
  repeat case_match; count_requests; by rewrite Hb.
Qed.

Lemma publish_issues_one_write_request_witness :
  ReachesPublish
    (Example.world (<["METHOD" := "put"]> Example.vars) Example.served Example.created
       [Example.triple])
    Example.replace [Example.triple] Example.ttl
  ∧ requests
      (trace (main (Example.world (<["METHOD" := "put"]> Example.vars) Example.served
                      Example.created [Example.triple])))
    = [ sourceRequest "https://example.org/data.ttl";
        {| Request.url := "https://example.org/store";
           Request.method := Some "PUT";
           Request.headers := [("content-type", "text/turtle")];
           Request.body := Some "<a> <b> <c> ." |} ].
Proof.
  assert (ReachesPublish
    (Example.world (<["METHOD" := "put"]> Example.vars) Example.served Example.created
       [Example.triple])
    Example.replace [Example.triple] Example.ttl) as H.
  { split; [repeat split; reflexivity|]. eexists _, _, _. split_and!; reflexivity. }
  split; [exact H|].
  exact (publish_issues_one_write_request _ _ _ _ H).
Defined.

(** C2. When the source answers with a status outside 200-299, the run
    rejects with the fetch error that carries the status, the reason
    phrase and the url; its only effects are the progress line and the
    request, so neither the parser nor the store is ever invoked. *)
Theorem fetch_failure_skips_ingestion (w : World) (cfg : Spec.Configuration)
    (res : Response.t) :
  Configured w cfg →
  fetch w (sourceRequest (Spec.sourceUrl cfg)) = Resolved res →
  ¬ (200 ≤ Response.status res ≤ 299)%N →
  main w =
    ([ConsoleError ("[1/3] Fetching RDF from: " +:+ Spec.sourceUrl cfg);
      HttpFetch (sourceRequest (Spec.sourceUrl cfg))],
     Rejected (Error ("Failed to fetch RDF: " +:+ Js.show (Response.status res) +:+ " "
                        +:+ Response.statusText res
                        +:+ " (" +:+ Spec.sourceUrl cfg +:+ ")")))
  ∧ FetchError (Error ("Failed to fetch RDF: " +:+ Js.show (Response.status res) +:+ " "
                        +:+ Response.statusText res
                        +:+ " (" +:+ Spec.sourceUrl cfg +:+ ")"))
  ∧ Forall (λ ef, isIngestion ef = false) (trace (main w)).
Proof.
  intros Hcfg Hres Hbad%not_ok.
  assert (main w =
    ([ConsoleError ("[1/3] Fetching RDF from: " +:+ Spec.sourceUrl cfg);
      HttpFetch (sourceRequest (Spec.sourceUrl cfg))],
     Rejected (Error ("Failed to fetch RDF: " +:+ Js.show (Response.status res) +:+ " "
                        +:+ Response.statusText res
                        +:+ " (" +:+ Spec.sourceUrl cfg +:+ ")")))) as Hmain.
  { configured Hcfg. rewrite fetchRdfToStore_run, Hres, Hbad. by exec. }
  split_and!; [done|constructor|].
  rewrite Hmain. by repeat constructor.
Qed.

Lemma fetch_failure_skips_ingestion_witness :
  Configured (Example.world Example.vars Example.notFound Example.created []) Example.append
  ∧ main (Example.world Example.vars Example.notFound Example.created []) =
      ([ConsoleError "[1/3] Fetching RDF from: https://example.org/data.ttl";
        HttpFetch (sourceRequest "https://example.org/data.ttl")],
       Rejected (Error "Failed to fetch RDF: 404 Not Found (https://example.org/data.ttl)")).
Proof.
  assert (Configured (Example.world Example.vars Example.notFound Example.created [])
            Example.append) as H by (repeat split; reflexivity).
  split; [exact H|].
  refine (proj1 (fetch_failure_skips_ingestion _ _ Example.notFound H eq_refl _)).
  simpl. lia.
Defined.

(** C3 does not hold as stated: a METHOD that is set, but to the empty
    string, is neither PUT nor POST, and yet resolution succeeds; the run
    goes on to fetch the source and then writes with POST. *)
Lemma empty_METHOD_is_accepted :
  env (Example.world (<["METHOD" := ""]> Example.vars) Example.served Example.created
         [Example.triple]) !! "METHOD" = Some ""
  ∧ ¬ Spec.sameUpToCase "" "PUT"
  ∧ ¬ Spec.sameUpToCase "" "POST"
  ∧ main (Example.world (<["METHOD" := ""]> Example.vars) Example.served Example.created
            [Example.triple])
    = ([ConsoleError "[1/3] Fetching RDF from: https://example.org/data.ttl";
        HttpFetch (sourceRequest "https://example.org/data.ttl");
        RdfParse "<a> <b> <c> ." "text/turtle" "https://example.org/data.ttl";
        NewStore [Example.triple];
        ConsoleError "[1/3] Loaded quads: 1";
        ConsoleError "[2/3] Evaluating SPARQL query...";
        QueryQuads "CONSTRUCT {?s ?p ?o} WHERE {?s ?p ?o}" {| added := [Example.triple] |};
        ConsoleError "[2/3] Result quads: 1";
        WriteTurtle [Example.triple];
        ConsoleError "[3/3] Writing results to store: https://example.org/store (METHOD=POST)";
        HttpFetch (writeRequest "https://example.org/store" "POST" "<a> <b> <c> .");
        ConsoleError "[3/3] Done."],
       Resolved tt)
  ∧ ¬ ∃ e, main (Example.world (<["METHOD" := ""]> Example.vars) Example.served
                   Example.created [Example.triple]) = ([], Rejected e).
Proof.
  split_and!; [reflexivity|discriminate|discriminate|by vm_compute|].
  intros [e He]. by vm_compute in He.
Qed.

(** C3, amended.  A METHOD that is set to a non-empty value other than PUT
    or POST, in any mix of upper and lower case, makes [main] reject with a
    configuration error before any effect.  When METHOD is absent or
    empty, the write method is POST: no request of the run names another
    method; with the required parameters in place resolution succeeds, so
    that the run reports the fetch and requests the source; and when the
    run gets as far as the write, the request it sends to the store is a
    POST, announced as such in the progress line. *)
Theorem method_resolution (w : World) :
  (∀ v, env w !! "METHOD" = Some v → v ≠ "" →
        ¬ Spec.sameUpToCase v "PUT" → ¬ Spec.sameUpToCase v "POST" →
        ∃ e, ConfigError e ∧ main w = ([], Rejected e))
  ∧ (env w !! "METHOD" = None ∨ env w !! "METHOD" = Some "" →
     Forall (λ r, Request.method r = None ∨ Request.method r = Some "POST")
            (requests (trace (main w))))
  ∧ (env w !! "METHOD" = None ∨ env w !! "METHOD" = Some "" →
     ∀ URL QUERY STORE,
       present w "URL" URL → present w "Query" QUERY → present w "STORE" STORE →
       (∃ rest,
          trace (main w) =
            ConsoleError ("[1/3] Fetching RDF from: " +:+ URL)
            :: HttpFetch (sourceRequest URL)
            :: rest)
       ∧ ∀ t store results ttl,
           fetchRdfToStore w URL = (t, Resolved store) →
           queryQuads w QUERY store = Resolved results →
           ending results = End →
           writer_end w (chunks results) = Resolved ttl →
           requests (trace (main w)) =
             [ sourceRequest URL;
               {| Request.url := STORE;
                  Request.method := Some "POST";
                  Request.headers := [("content-type", "text/turtle")];
                  Request.body := Some ttl |} ]
           ∧ ConsoleError ("[3/3] Writing results to store: " +:+ STORE
                             +:+ " (METHOD=POST)")
               ∈ trace (main w)).
Proof.
  split_and!.
  - intros v Hv Hne HPUT HPOST.
    pose proof (unknown_method w v Hv Hne HPUT HPOST) as Hbad.
    destruct (required_cases w) as [(name & Hin & _ & Hm)|(URL & QUERY & STORE & HU & HQ & HS)].
    + eexists. split; [|exact Hm]. by constructor.
    + eexists. split; [|by eapply bad_METHOD]. constructor.
  - intros HM%default_method.
    destruct (resolution_cases w) as [[cfg Hcfg]|(e & _ & ->)]; [|by constructor].
    assert (Spec.httpMethod (Spec.writeMethod cfg) = "POST") as HPOST.
    { destruct Hcfg as (_ & _ & _ & <-). exact HM. }
    destruct (main_requests w cfg Hcfg) as [->|[ttl ->]].
    + constructor; [by left|constructor].
    + rewrite HPOST. constructor; [by left|]. constructor; [by right|constructor].
  - intros HM%default_method URL QUERY STORE HU HQ HS.
    assert (Configured w {| Spec.sourceUrl := URL; Spec.query := QUERY;
                            Spec.storeUrl := STORE; Spec.writeMethod := Spec.APPEND |})
      as Hcfg by done.
    split.
    + pose proof Hcfg as H. configured H. cbn [Spec.sourceUrl].
      destruct (fetchRdfToStore_first w URL) as [later Hlater].
      destruct (fetchRdfToStore w URL) as [t' [store'|e]];
        simpl in Hlater; subst t'; exec; by eexists.
    + intros t store results ttl Hload Hquery Hend Httl.
      pose proof (fetchRdfToStore_requests w URL) as Hr.
      rewrite Hload in Hr. simpl in Hr.
      pose proof Hcfg as H. configured H.
      cbn [Spec.sourceUrl Spec.query Spec.storeUrl Spec.writeMethod Spec.httpMethod].
      rewrite Hload. exec. rewrite Hquery. exec.
      rewrite streamToArray_spec, Hend. exec. rewrite Httl. exec.
      split.
      * destruct (fetch w (writeRequest STORE "POST" ttl)) as [writeRes|e]; exec;
          [destruct (Response.ok writeRes); exec;
             [|destruct (Response.text writeRes); exec]|];
          count_requests; by rewrite Hr.
      * apply list_elem_of_In. right. apply in_or_app. right.
        do 5 right. by left.
Qed.

Lemma method_resolution_witness :
  (∃ e, ConfigError e
        ∧ main (Example.world (<["METHOD" := "DELETE"]> Example.vars) Example.served
                  Example.created [Example.triple]) = ([], Rejected e))
  ∧ Forall (λ r, Request.method r = None ∨ Request.method r = Some "POST")
      (requests (trace (main (Example.world Example.vars Example.served Example.created
                                [Example.triple]))))
  ∧ (∃ rest,
       trace (main (Example.world Example.vars Example.served Example.created
                      [Example.triple]))
       = ConsoleError "[1/3] Fetching RDF from: https://example.org/data.ttl"
         :: HttpFetch (sourceRequest "https://example.org/data.ttl")
         :: rest)
  ∧ requests (trace (main (Example.world Example.vars Example.served Example.created
                             [Example.triple])))
    = [ sourceRequest "https://example.org/data.ttl";
        {| Request.url := "https://example.org/store";
           Request.method := Some "POST";
           Request.headers := [("content-type", "text/turtle")];
           Request.body := Some "<a> <b> <c> ." |} ]
  ∧ ConsoleError "[3/3] Writing results to store: https://example.org/store (METHOD=POST)"
      ∈ trace (main (Example.world Example.vars Example.served Example.created
                       [Example.triple])).
Proof.
  split.
  { apply (proj1 (method_resolution
                    (Example.world (<["METHOD" := "DELETE"]> Example.vars) Example.served
                       Example.created [Example.triple])) "DELETE");
      [reflexivity|discriminate|discriminate|discriminate]. }
  split.
  { apply (proj1 (proj2 (method_resolution
                    (Example.world Example.vars Example.served Example.created
                       [Example.triple])))).
    left. reflexivity. }
  destruct (proj2 (proj2 (method_resolution
              (Example.world Example.vars Example.served Example.created
                 [Example.triple])))
              (or_introl eq_refl)
              "https://example.org/data.ttl" "CONSTRUCT {?s ?p ?o} WHERE {?s ?p ?o}"
              "https://example.org/store"
              (conj eq_refl eq_refl) (conj eq_refl eq_refl) (conj eq_refl eq_refl))
    as [Hstart Hwrite].
  split; [exact Hstart|].
  exact (Hwrite
           [HttpFetch (sourceRequest "https://example.org/data.ttl");
            RdfParse "<a> <b> <c> ." "text/turtle" "https://example.org/data.ttl";
            NewStore [Example.triple]]
           {| added := [Example.triple] |}
           {| chunks := [Example.triple]; ending := End |}
           "<a> <b> <c> ." eq_refl eq_refl eq_refl eq_refl).
Defined.

(** C4. When one of URL, Query and STORE is absent or blank, [main]
    rejects with the error that names such a parameter, and it does so
    without any effect: no request, no parse, no query. *)
Theorem missing_parameter_fails_before_any_stage (w : World) (name : string) :
  name ∈ ["URL"; "Query"; "STORE"] →
  missing w name →
  ∃ culprit,
    culprit ∈ ["URL"; "Query"; "STORE"] ∧ missing w culprit ∧
    ConfigError (Error ("Missing env var: " +:+ culprit)) ∧
    main w = ([], Rejected (Error ("Missing env var: " +:+ culprit))).
Proof.
  intros Hin Hmiss.
  destruct (required_cases w) as [(culprit & Hc & Hm & Hmain)|(URL & QUERY & STORE & HU & HQ & HS)].
  - exists culprit. split_and!; [done|done|by constructor|done].
  - exfalso. set_unfold in Hin.
    destruct Hin as [->|[->|[->|[]]]];
      [ by apply (present_not_missing _ _ _ HU)
      | by apply (present_not_missing _ _ _ HQ)
      | by apply (present_not_missing _ _ _ HS) ].
Qed.

Lemma missing_parameter_fails_before_any_stage_witness :
  missing (Example.world (<["Query" := "   "]> Example.vars) Example.served Example.created [])
    "Query"
  ∧ ∃ culprit,
      culprit ∈ ["URL"; "Query"; "STORE"]
      ∧ missing (Example.world (<["Query" := "   "]> Example.vars) Example.served
                   Example.created []) culprit
      ∧ ConfigError (Error ("Missing env var: " +:+ culprit))
      ∧ main (Example.world (<["Query" := "   "]> Example.vars) Example.served
                Example.created [])
        = ([], Rejected (Error ("Missing env var: " +:+ culprit))).
Proof.
  split; [reflexivity|].
  apply (missing_parameter_fails_before_any_stage _ "Query"); [|reflexivity].
  apply list_elem_of_In. simpl. tauto.
Defined.

(** C5. When the source answers with a 2xx status and a body, the parser
    is called once, on that body, with the source url as base IRI and with
    the negotiated content type: the [content-type] header cut before its
    first [;] and trimmed, or [text/turtle] when the header is absent or
    nothing is left of it.  The header determines that content type. *)
Theorem parser_receives_negotiated_content_type (w : World) (url : string)
    (res : Response.t) (b : string) :
  fetch w (sourceRequest url) = Resolved res →
  (200 ≤ Response.status res ≤ 299)%N →
  Response.body res = Some b →
  ∃ contentType,
    parserCalls (trace (fetchRdfToStore w url)) = [(b, contentType, url)] ∧
    Spec.Negotiated (Response.get res "content-type") contentType ∧
    ∀ other, Spec.Negotiated (Response.get res "content-type") other →
             other = contentType.
Proof.
  intros Hres Hok%ok_iff Hb. exists (contentTypeOf res).
  split_and!; [|apply contentTypeOf_negotiated|apply Negotiated_contentTypeOf].
  rewrite fetchRdfToStore_run, Hres, Hok, Hb. cbv zeta.
  by destruct (ending _).
Qed.

Lemma parser_receives_negotiated_content_type_witness :
  fetch (Example.world Example.vars Example.served Example.created [])
    (sourceRequest "https://example.org/data.ttl") = Resolved Example.served
  ∧ (200 ≤ Response.status Example.served ≤ 299)%N
  ∧ Response.body Example.served = Some "<a> <b> <c> ."
  ∧ ∃ contentType,
    parserCalls
      (trace (fetchRdfToStore
                (Example.world Example.vars Example.served Example.created [])
                "https://example.org/data.ttl"))
    = [("<a> <b> <c> .", contentType, "https://example.org/data.ttl")]
    ∧ Spec.Negotiated (Some " text/turtle ; charset=utf-8") contentType
    ∧ ∀ other, Spec.Negotiated (Some " text/turtle ; charset=utf-8") other →
               other = contentType.
Proof.
  assert (200 ≤ Response.status Example.served ≤ 299)%N as Hok by (simpl; lia).
  split; [reflexivity|]. split; [exact Hok|]. split; [reflexivity|].
  exact (parser_receives_negotiated_content_type
           (Example.world Example.vars Example.served Example.created [])
           "https://example.org/data.ttl" Example.served "<a> <b> <c> ."
           eq_refl Hok eq_refl).
Defined.

(** C6. Every fetch of the source is a single request to the given url,
    sent without a method of its own and so as a GET, without a body, and
    with the [accept] header that lists Turtle, N-Triples, JSON-LD,
    RDF/XML, TriG and N-Quads in this order, then the two low-preference
    fallbacks. *)
Theorem source_fetch_is_get_with_accept (w : World) (url : string) :
  ∃ request,
    requests (trace (fetchRdfToStore w url)) = [request] ∧
    Request.url request = url ∧
    Request.verb request = "GET" ∧
    Request.body request = None ∧
    Request.headers request =
      [("accept",
        "text/turtle, application/n-triples, application/ld+json, application/rdf+xml, application/trig, application/n-quads, application/octet-stream;q=0.1, */*;q=0.01")].
Proof. exists (sourceRequest url). by rewrite fetchRdfToStore_requests. Qed.

(** C7. In every world whose Turtle writer honours the contract of the
    specification, when the query yields no quads the serialization
    succeeds, with a valid document that has no statement, and that
    document is written to the store all the same: the writer is called on
    the empty sequence, the one write request carries its text, and the
    run succeeds when the store accepts the write. *)
Theorem empty_result_is_published (w : World) (writer : TurtleWriter.t)
    (cfg : Spec.Configuration) (t : list Effect) (store : Store)
    (results : Stream Quad) (writeRes : Response.t) :
  Configured (withWriter w writer) cfg →
  fetchRdfToStore (withWriter w writer) (Spec.sourceUrl cfg) = (t, Resolved store) →
  queryQuads (withWriter w writer) (Spec.query cfg) store = Resolved results →
  ending results = End →
  chunks results = [] →
  fetch (withWriter w writer)
    (writeRequest (Spec.storeUrl cfg) (Spec.httpMethod (Spec.writeMethod cfg))
       (TurtleWriter.serialize writer []))
    = Resolved writeRes →
  (200 ≤ Response.status writeRes ≤ 299)%N →
  quadsToTurtle (withWriter w writer) []
    = ([WriteTurtle []], Resolved (TurtleWriter.serialize writer [])) ∧
  TurtleWriter.statementFree (TurtleWriter.serialize writer []) = true ∧
  WriteTurtle [] ∈ trace (main (withWriter w writer)) ∧
  requests (trace (main (withWriter w writer))) =
    [ sourceRequest (Spec.sourceUrl cfg);
      writeRequest (Spec.storeUrl cfg) (Spec.httpMethod (Spec.writeMethod cfg))
        (TurtleWriter.serialize writer []) ] ∧
  outcome (main (withWriter w writer)) = Resolved tt.
Proof.
  intros Hcfg Hload Hquery Hend Hquads Hwrite Hok%ok_iff.
  assert (ReachesPublish (withWriter w writer) cfg [] (TurtleWriter.serialize writer []))
    as Hreach.
  { split; [done|]. by exists t, store, results. }
  split_and!; [done|apply TurtleWriter.serialize_nil| | |].
  - pose proof Hcfg as H. configured H. rewrite Hload. exec. rewrite Hquery. exec.
    rewrite streamToArray_spec, Hend, Hquads. exec.
    set_solver.
  - destruct (main_publish _ cfg [] _ Hreach) as (before & Hb & ->).
    cbv zeta. rewrite Hwrite, Hok. count_requests. by rewrite Hb.
  - destruct (main_publish _ cfg [] _ Hreach) as (before & Hb & ->).
    cbv zeta. by rewrite Hwrite, Hok.
Qed.

Lemma empty_result_is_published_witness :
  Configured
    (withWriter (Example.world Example.vars Example.served Example.created []) sampleWriter)
    Example.append
  ∧ quadsToTurtle
      (withWriter (Example.world Example.vars Example.served Example.created [])
         sampleWriter) []
    = ([WriteTurtle []], Resolved "")
  ∧ TurtleWriter.statementFree "" = true
  ∧ WriteTurtle []
      ∈ trace (main (withWriter
                       (Example.world Example.vars Example.served Example.created [])
                       sampleWriter))
  ∧ requests
      (trace (main (withWriter
                      (Example.world Example.vars Example.served Example.created [])
                      sampleWriter)))
    = [ sourceRequest "https://example.org/data.ttl";
        writeRequest "https://example.org/store" "POST" "" ]
  ∧ outcome
      (main (withWriter (Example.world Example.vars Example.served Example.created [])
               sampleWriter))
    = Resolved tt.
Proof.
  assert (Configured
            (withWriter (Example.world Example.vars Example.served Example.created [])
               sampleWriter)
            Example.append) as H by (repeat split; reflexivity).
  split; [exact H|].
  refine (empty_result_is_published
            (Example.world Example.vars Example.served Example.created []) sampleWriter
            Example.append
            [HttpFetch (sourceRequest "https://example.org/data.ttl");
             RdfParse "<a> <b> <c> ." "text/turtle" "https://example.org/data.ttl";
             NewStore [Example.triple]]
            {| added := [Example.triple] |} {| chunks := []; ending := End |}
            Example.created H eq_refl eq_refl eq_refl eq_refl eq_refl _).
  simpl. lia.
Defined.

(** C8. When the store answers the write with a status outside 200-299,
    the run rejects with the publish error whose message carries the
    status, the reason phrase and, after a line break, the text of the
    response body when it can be read. *)
Theorem publish_failure_reports_status_and_body (w : World) (cfg : Spec.Configuration)
    (quads : list Quad) (ttl : string) (writeRes : Response.t) :
  ReachesPublish w cfg quads ttl →
  fetch w (writeRequest (Spec.storeUrl cfg) (Spec.httpMethod (Spec.writeMethod cfg)) ttl)
    = Resolved writeRes →
  ¬ (200 ≤ Response.status writeRes ≤ 299)%N →
  outcome (main w) =
    Rejected
      (Error ("Failed to write to STORE: " +:+ Js.show (Response.status writeRes) +:+ " "
                +:+ Response.statusText writeRes +:+ Js.newline
                +:+ match Response.text writeRes with
                    | Resolved body => body
                    | Rejected _ => ""
                    end))
  ∧ PublishError
      (Error ("Failed to write to STORE: " +:+ Js.show (Response.status writeRes) +:+ " "
                +:+ Response.statusText writeRes +:+ Js.newline
                +:+ match Response.text writeRes with
                    | Resolved body => body
                    | Rejected _ => ""
                    end)).
Proof.
  intros (before & Hb & ->)%main_publish Hwrite Hbad%not_ok.
  cbv zeta. rewrite Hwrite, Hbad. split; [done|constructor].
Qed.

Lemma publish_failure_reports_status_and_body_witness :
  ReachesPublish (Example.world Example.vars Example.served Example.refused [Example.triple])
    Example.append [Example.triple] Example.ttl
  ∧ outcome (main (Example.world Example.vars Example.served Example.refused
                     [Example.triple]))
    = Rejected (Error ("Failed to write to STORE: 403 Forbidden" +:+ Js.newline
                         +:+ "read-only store")).
Proof.
  assert (ReachesPublish
            (Example.world Example.vars Example.served Example.refused [Example.triple])
            Example.append [Example.triple] Example.ttl) as H.
  { split; [repeat split; reflexivity|]. eexists _, _, _. split_and!; reflexivity. }
  split; [exact H|].
  refine (proj1 (publish_failure_reports_status_and_body _ _ _ _ Example.refused H eq_refl _)).
  simpl. lia.
Defined.

(** C9 does not hold as stated: with relative references for URL and
    STORE, which are not absolute URIs, resolution succeeds; the run enters
    the fetch stage, reports it and calls [fetch] on the value as given.
    What fails then is the HTTP client, and not with a configuration
    error. *)
Lemma relative_references_pass_resolution :
  env (Example.world Example.relativeVars Example.served Example.created [Example.triple])
    !! "URL" = Some "data.ttl"
  ∧ env (Example.world Example.relativeVars Example.served Example.created [Example.triple])
      !! "STORE" = Some "store"
  ∧ Spec.hasScheme "data.ttl" = false
  ∧ Spec.hasScheme "store" = false
  ∧ main (Example.world Example.relativeVars Example.served Example.created
            [Example.triple])
    = ([ConsoleError "[1/3] Fetching RDF from: data.ttl";
        HttpFetch (sourceRequest "data.ttl")],
       Rejected (Other "TypeError: Failed to parse URL"))
  ∧ ¬ ConfigError (Other "TypeError: Failed to parse URL")
  ∧ ¬ ∃ e, main (Example.world Example.relativeVars Example.served Example.created
                   [Example.triple]) = ([], Rejected e).
Proof.
  split_and!; try by vm_compute.
  - inversion 1.
  - intros [e He]. by vm_compute in He.
Qed.

(** C9, amended.  Resolution looks at presence only: whenever URL, Query
    and STORE are set to values that are not blank, whether absolute URIs
    or not, and METHOD is acceptable, the run reports the fetch and
    requests URL exactly as given. *)
Theorem resolution_checks_presence_only (w : World) (cfg : Spec.Configuration) :
  Configured w cfg →
  ∃ rest,
    trace (main w) =
      ConsoleError ("[1/3] Fetching RDF from: " +:+ Spec.sourceUrl cfg)
      :: HttpFetch (sourceRequest (Spec.sourceUrl cfg))
      :: rest.
Proof.
  intros Hcfg. configured Hcfg.
  destruct (fetchRdfToStore_first w (Spec.sourceUrl cfg)) as [later Hlater].
  destruct (fetchRdfToStore w (Spec.sourceUrl cfg)) as [t [store|e]];
    simpl in Hlater; subst t; exec; by eexists.
Qed.

Lemma resolution_checks_presence_only_witness :
  Configured (Example.world Example.relativeVars Example.served Example.created
                [Example.triple]) Example.relative
  ∧ ∃ rest,
      trace (main (Example.world Example.relativeVars Example.served Example.created
                     [Example.triple]))
      = ConsoleError "[1/3] Fetching RDF from: data.ttl"
        :: HttpFetch (sourceRequest "data.ttl")
        :: rest.
Proof.
  assert (Configured (Example.world Example.relativeVars Example.served Example.created
                        [Example.triple]) Example.relative) as H
    by (repeat split; reflexivity).
  split; [exact H|].
  exact (resolution_checks_presence_only _ _ H).
Defined.

(** C10. When the store answers the write with a status outside 200-299
    and reading the response body fails, the read is attempted, its error
    is dropped, and the run rejects with the publish error for the status,
    with nothing after the line break. *)
Theorem unreadable_body_is_swallowed (w : World) (cfg : Spec.Configuration)
    (quads : list Quad) (ttl : string) (writeRes : Response.t) (readError : Thrown) :
  ReachesPublish w cfg quads ttl →
  fetch w (writeRequest (Spec.storeUrl cfg) (Spec.httpMethod (Spec.writeMethod cfg)) ttl)
    = Resolved writeRes →
  ¬ (200 ≤ Response.status writeRes ≤ 299)%N →
  Response.text writeRes = Rejected readError →
  last (trace (main w)) = Some (ReadText writeRes) ∧
  outcome (main w) =
    Rejected
      (Error ("Failed to write to STORE: " +:+ Js.show (Response.status writeRes) +:+ " "
                +:+ Response.statusText writeRes +:+ Js.newline +:+ "")).
Proof.
  intros (before & Hb & ->)%main_publish Hwrite Hbad%not_ok Hread.
  cbv zeta. rewrite Hwrite, Hbad, Hread. split; [|done].
  cbn [trace fst]. by rewrite last_snoc.
Qed.

Lemma unreadable_body_is_swallowed_witness :
  ReachesPublish (Example.world Example.vars Example.served Example.broken [Example.triple])
    Example.append [Example.triple] Example.ttl
  ∧ last (trace (main (Example.world Example.vars Example.served Example.broken
                         [Example.triple])))
    = Some (ReadText Example.broken)
  ∧ outcome (main (Example.world Example.vars Example.served Example.broken
                     [Example.triple]))
    = Rejected (Error ("Failed to write to STORE: 502 Bad Gateway" +:+ Js.newline)).
Proof.
  assert (ReachesPublish
            (Example.world Example.vars Example.served Example.broken [Example.triple])
            Example.append [Example.triple] Example.ttl) as H.
  { split; [repeat split; reflexivity|]. eexists _, _, _. split_and!; reflexivity. }
  split; [exact H|].
  refine (unreadable_body_is_swallowed _ _ _ _ Example.broken (Other "terminated")
            H eq_refl _ eq_refl).
  simpl. lia.
Defined.

(** ** Further properties of the code *)

(** *** [streamToArray] *)

(** X1. [streamToArray] has no effect of its own.  From a stream that ends
    it resolves with all the items, in the order in which they were
    emitted; from a stream that fails it rejects with the error of the
    stream, whatever was emitted before. *)
Theorem streamToArray_collects_in_order {A} (stream : Stream A) :
  streamToArray stream =
    ([], match ending stream with
         | End => Resolved (chunks stream)
         | Failed reason => Rejected reason
         end).
Proof. rewrite streamToArray_spec. by destruct (ending stream). Qed.

(** *** [mustEnv] *)

(** X2. [mustEnv] has no effect.  It returns the value of the variable as
    it stands, untrimmed, exactly when the variable is set to a value with
    at least one character that is not whitespace.  When the variable is
    set to a blank value, or is not set and its name is not one that
    [process.env] inherits from [Object.prototype], it throws the error
    that names the variable.  When the variable is not set and its name
    is inherited, such as [toString], the value read is not a string and
    the call of [trim] throws a [TypeError]. *)
Theorem mustEnv_accepts_exactly_nonblank (w : World) (name : string) :
  (∃ v, env w !! name = Some v ∧ Spec.blank v = false ∧
        mustEnv w name = ([], Resolved v))
  ∨ (absentOrBlank w name = true ∧
     (env w !! name = None → Js.inherited name = false) ∧
     mustEnv w name = ([], Rejected (Error ("Missing env var: " +:+ name))))
  ∨ (env w !! name = None ∧ Js.inherited name = true ∧
     mustEnv w name = ([], Rejected (Other "TypeError: v.trim is not a function"))).
Proof.
  unfold mustEnv, absentOrBlank. destruct (env w !! name) as [v|].
  - rewrite trim_eqb_blank. destruct (Spec.blank v) eqn:Hb.
    + right. left. rewrite orb_true_r. by split_and!.
    + left. exists v. rewrite orb_false_r.
      destruct (String.eqb v "") eqn:He; [|done].
      apply eqb_empty_blank in He. congruence.
  - destruct (Js.inherited name) eqn:Hname.
    + right. right. by split_and!.
    + right. left. by split_and!.
Qed.

Example mustEnv_toString :
  mustEnv (Example.world Example.vars Example.served Example.created []) "toString"
  = ([], Rejected (Other "TypeError: v.trim is not a function")).
Proof. reflexivity. Qed.

(** *** [fetchRdfToStore] *)

(** X3. When the source answers 2xx with a body and the parser's stream
    ends, [fetchRdfToStore] performs the request, one call of the parser
    on that body with the url as base IRI, and the construction of the
    store, in this order, and resolves with the store of exactly the
    quads the parser emitted, in their order. *)
Theorem fetchRdfToStore_loads_parsed_quads (w : World) (url : string)
    (res : Response.t) (b : string) :
  fetch w (sourceRequest url) = Resolved res →
  (200 ≤ Response.status res ≤ 299)%N →
  Response.body res = Some b →
  ending (rdfParser_parse w b (contentTypeOf res) url) = End →
  fetchRdfToStore w url =
    ([HttpFetch (sourceRequest url);
      RdfParse b (contentTypeOf res) url;
      NewStore (chunks (rdfParser_parse w b (contentTypeOf res) url))],
     Resolved {| added := chunks (rdfParser_parse w b (contentTypeOf res) url) |}).
Proof.
  intros Hres Hok%ok_iff Hb Hend.
  rewrite fetchRdfToStore_run, Hres, Hok, Hb. cbv zeta. by rewrite Hend.
Qed.

Lemma fetchRdfToStore_loads_parsed_quads_witness :
  fetchRdfToStore
    (Example.world Example.vars Example.served Example.created [])
    "https://example.org/data.ttl"
  = ([HttpFetch (sourceRequest "https://example.org/data.ttl");
      RdfParse "<a> <b> <c> ." "text/turtle" "https://example.org/data.ttl";
      NewStore [Example.triple]],
     Resolved {| added := [Example.triple] |}).
Proof.
  refine (fetchRdfToStore_loads_parsed_quads
            (Example.world Example.vars Example.served Example.created [])
            "https://example.org/data.ttl" Example.served "<a> <b> <c> ."
            eq_refl _ eq_refl eq_refl).
  simpl. lia.
Defined.

(** X4. When the request to the source is rejected (no answer at all),
    [fetchRdfToStore] rejects with the same reason: the failure is not
    wrapped, and nothing but the request was done. *)
Theorem fetchRdfToStore_network_failure (w : World) (url : string) (reason : Thrown) :
  fetch w (sourceRequest url) = Rejected reason →
  fetchRdfToStore w url = ([HttpFetch (sourceRequest url)], Rejected reason).
Proof. intros Hres. by rewrite fetchRdfToStore_run, Hres. Qed.

Lemma fetchRdfToStore_network_failure_witness :
  fetchRdfToStore
    (Faulty.world (Rejected (Other "fetch failed")) (Resolved Example.created)
       Faulty.one (Resolved Faulty.one) (Resolved Example.ttl))
    "https://example.org/data.ttl"
  = ([HttpFetch (sourceRequest "https://example.org/data.ttl")],
     Rejected (Other "fetch failed")).
Proof.
  exact (fetchRdfToStore_network_failure
           (Faulty.world (Rejected (Other "fetch failed")) (Resolved Example.created)
              Faulty.one (Resolved Faulty.one) (Resolved Example.ttl))
           "https://example.org/data.ttl" (Other "fetch failed") eq_refl).
Defined.

(** X5. A 2xx answer without a body, such as 204 No Content, does not
    reach the parser: [Readable.fromWeb] throws on the [null] body, and
    [fetchRdfToStore] rejects with that [TypeError] after the request. *)
Theorem fetchRdfToStore_without_body (w : World) (url : string) (res : Response.t) :
  fetch w (sourceRequest url) = Resolved res →
  (200 ≤ Response.status res ≤ 299)%N →
  Response.body res = None →
  fetchRdfToStore w url =
    ([HttpFetch (sourceRequest url)], Rejected (Other "TypeError [ERR_INVALID_ARG_TYPE]")).
Proof.
  intros Hres Hok%ok_iff Hb. by rewrite fetchRdfToStore_run, Hres, Hok, Hb.
Qed.

Lemma fetchRdfToStore_without_body_witness :
  fetchRdfToStore
    (Faulty.world (Resolved Faulty.noContent) (Resolved Example.created)
       Faulty.one (Resolved Faulty.one) (Resolved Example.ttl))
    "https://example.org/data.ttl"
  = ([HttpFetch (sourceRequest "https://example.org/data.ttl")],
     Rejected (Other "TypeError [ERR_INVALID_ARG_TYPE]")).
Proof.
  refine (fetchRdfToStore_without_body
            (Faulty.world (Resolved Faulty.noContent) (Resolved Example.created)
               Faulty.one (Resolved Faulty.one) (Resolved Example.ttl))
            "https://example.org/data.ttl" Faulty.noContent eq_refl _ eq_refl).
  simpl. lia.
Defined.

(** X6. When the parser's stream fails, [fetchRdfToStore] rejects with the
    error of the stream; the quads emitted before the error are dropped
    and no store is built. *)
Theorem fetchRdfToStore_parse_failure (w : World) (url : string)
    (res : Response.t) (b : string) (reason : Thrown) :
  fetch w (sourceRequest url) = Resolved res →
  (200 ≤ Response.status res ≤ 299)%N →
  Response.body res = Some b →
  ending (rdfParser_parse w b (contentTypeOf res) url) = Failed reason →
  fetchRdfToStore w url =
    ([HttpFetch (sourceRequest url); RdfParse b (contentTypeOf res) url],
     Rejected reason).
Proof.
  intros Hres Hok%ok_iff Hb Hend.
  rewrite fetchRdfToStore_run, Hres, Hok, Hb. cbv zeta. by rewrite Hend.
Qed.

Lemma fetchRdfToStore_parse_failure_witness :
  fetchRdfToStore
    (Faulty.world (Resolved Example.served) (Resolved Example.created)
       Faulty.truncated (Resolved Faulty.one) (Resolved Example.ttl))
    "https://example.org/data.ttl"
  = ([HttpFetch (sourceRequest "https://example.org/data.ttl");
      RdfParse "<a> <b> <c> ." "text/turtle" "https://example.org/data.ttl"],
     Rejected (Error "Unexpected end of input")).
Proof.
  refine (fetchRdfToStore_parse_failure
            (Faulty.world (Resolved Example.served) (Resolved Example.created)
               Faulty.truncated (Resolved Faulty.one) (Resolved Example.ttl))
            "https://example.org/data.ttl" Example.served "<a> <b> <c> ."
            (Error "Unexpected end of input") eq_refl _ eq_refl eq_refl).
  simpl. lia.
Defined.

(** *** The content type handed to the parser *)

Lemma mentions_app (c : ascii) (s t : string) :
  Spec.mentions c (s +:+ t) = Spec.mentions c s || Spec.mentions c t.
Proof.
  induction s as [|d s IH]; [done|].
  rewrite app_String. simpl. by rewrite IH, orb_assoc.
Qed.

(** X7. Whatever the response, the content type computed for the parser
    is never empty, holds no [;] and has no whitespace at either end. *)
Theorem contentType_is_well_formed (res : Response.t) :
  contentTypeOf res ≠ "" ∧
  Spec.mentions ";" (contentTypeOf res) = false ∧
  Spec.startsWithSpace (contentTypeOf res) = false ∧
  Spec.endsWithSpace (contentTypeOf res) = false.
Proof.
  pose proof (contentTypeOf_negotiated res) as H. unfold Spec.Negotiated in H.
  destruct (Response.get res "content-type") as [h|]; [|by rewrite H].
  destruct H as (p & r & [Hno _] & (before & after & -> & _ & _ & Hs & He) & ->).
  case_decide as Hr; [done|].
  rewrite !mentions_app in Hno.
  apply orb_false_iff in Hno as [_ [Hno _]%orb_false_iff]. done.
Qed.

(** X8. The parameters of the header do not matter: a header that
    continues a value free of [;] with [;] and anything at all gives the
    same content type as that value alone. *)
Theorem contentType_ignores_parameters (res res' : Response.t) (p parameters : string) :
  Spec.mentions ";" p = false →
  Response.get res "content-type" = Some p →
  Response.get res' "content-type" = Some (p +:+ String ";" parameters) →
  contentTypeOf res' = contentTypeOf res.
Proof.
  intros Hno Hres Hres'. unfold contentTypeOf. rewrite Hres, Hres'. simpl.
  rewrite (WithoutParameters_split p p), (WithoutParameters_split _ p); [done| |].
  - split; [done|]. right. by exists parameters.
  - split; [done|]. by left.
Qed.

Lemma contentType_ignores_parameters_witness :
  contentTypeOf
    {| Response.status := 200; Response.statusText := "OK";
       Response.headers := {[ "content-type" := "application/trig" +:+ String ";" " charset=utf-8" ]};
       Response.body := None; Response.text := Resolved "" |}
  = contentTypeOf
      {| Response.status := 200; Response.statusText := "OK";
         Response.headers := {[ "content-type" := "application/trig" ]};
         Response.body := None; Response.text := Resolved "" |}.
Proof.
  exact (contentType_ignores_parameters
           {| Response.status := 200; Response.statusText := "OK";
              Response.headers := {[ "content-type" := "application/trig" ]};
              Response.body := None; Response.text := Resolved "" |}
           {| Response.status := 200; Response.statusText := "OK";
              Response.headers :=
                {[ "content-type" := "application/trig" +:+ String ";" " charset=utf-8" ]};
              Response.body := None; Response.text := Resolved "" |}
           "application/trig" " charset=utf-8" eq_refl eq_refl eq_refl).
Defined.

(** X9. A header that is empty, blank, or has nothing but whitespace
    before its first [;] is treated like a missing header: the content
    type is [text/turtle]. *)
Theorem contentType_defaults_on_blank (res : Response.t) (h p : string) :
  Response.get res "content-type" = Some h →
  Spec.WithoutParameters h p →
  Spec.blank p = true →
  contentTypeOf res = "text/turtle".
Proof.
  intros Hres Hp Hb. unfold contentTypeOf. rewrite Hres. simpl.
  rewrite (WithoutParameters_split h p Hp). simpl.
  apply trim_empty_iff in Hb. by rewrite Hb.
Qed.

Lemma contentType_defaults_on_blank_witness :
  contentTypeOf
    {| Response.status := 200; Response.statusText := "OK";
       Response.headers := {[ "content-type" := "  ; charset=utf-8" ]};
       Response.body := None; Response.text := Resolved "" |}
  = "text/turtle".
Proof.
  refine (contentType_defaults_on_blank
            {| Response.status := 200; Response.statusText := "OK";
               Response.headers := {[ "content-type" := "  ; charset=utf-8" ]};
               Response.body := None; Response.text := Resolved "" |}
            "  ; charset=utf-8" "  " eq_refl _ eq_refl).
  split; [reflexivity|]. right. exists " charset=utf-8". reflexivity.
Defined.

(** *** [main]: the order of the checks *)

Lemma absentOrBlank_missing (w : World) (name : string) :
  absentOrBlank w name = true ↔ missing w name.
Proof. unfold absentOrBlank, missing. by destruct (env w !! name). Qed.

Lemma absentOrBlank_present (w : World) (name : string) :
  absentOrBlank w name = false → ∃ v, present w name v.
Proof.
  unfold absentOrBlank, present. destruct (env w !! name) as [v|]; [|done].
  by exists v.
Qed.

(** X10. The required parameters are read in the order URL, Query, STORE,
    and the first one that is absent or blank is the one the error names,
    whatever the state of the later ones and of METHOD. *)
Theorem first_missing_parameter_is_reported (w : World) (name : string) :
  firstMissing w = Some name →
  main w = ([], Rejected (Error ("Missing env var: " +:+ name))).
Proof.
  unfold firstMissing. cbn [find].
  destruct (absentOrBlank w "URL") eqn:HU.
  { intros [= <-]. by apply missing_URL, absentOrBlank_missing. }
  apply absentOrBlank_present in HU as [URL HU].
  destruct (absentOrBlank w "Query") eqn:HQ.
  { intros [= <-]. by eapply missing_Query, absentOrBlank_missing. }
  apply absentOrBlank_present in HQ as [QUERY HQ].
  destruct (absentOrBlank w "STORE") eqn:HS; [|done].
  intros [= <-]. by eapply missing_STORE, absentOrBlank_missing.
Qed.

Lemma first_missing_parameter_is_reported_witness :
  firstMissing
    (Example.world Faulty.incomplete
       Example.served Example.created [])
  = Some "Query"
  ∧ main
      (Example.world Faulty.incomplete
         Example.served Example.created [])
    = ([], Rejected (Error "Missing env var: Query")).
Proof.
  split; [reflexivity|].
  exact (first_missing_parameter_is_reported
           (Example.world Faulty.incomplete Example.served Example.created [])
           "Query" eq_refl).
Defined.

(** X11. With the three required parameters in place, a METHOD that is
    not empty and is neither PUT nor POST in any case makes [main] throw,
    before any effect, the error that quotes the value in upper case.
    This is stated of the values whose upper case lies below code unit
    256, that is, without micro sign and y with diaeresis. *)
Theorem bad_method_is_quoted_in_upper_case (w : World) (URL QUERY STORE v : string) :
  present w "URL" URL → present w "Query" QUERY → present w "STORE" STORE →
  env w !! "METHOD" = Some v → v ≠ "" →
  Js.upperCaseBelow256 v = true →
  ¬ Spec.sameUpToCase v "PUT" → ¬ Spec.sameUpToCase v "POST" →
  main w =
    ([], Rejected (Error ("METHOD must be PUT or POST (got: "
                            +:+ Js.toUpperCase v +:+ ")"))).
Proof.
  intros HU HQ HS Hv Hne _ HPUT HPOST.
  rewrite (bad_METHOD w URL QUERY STORE HU HQ HS (unknown_method w v Hv Hne HPUT HPOST)).
  rewrite Hv. simpl Js.orElse. by apply String.eqb_neq in Hne as ->.
Qed.

Lemma bad_method_is_quoted_in_upper_case_witness :
  Js.upperCaseBelow256 "Delete" = true
  ∧ main (Example.world (<["METHOD" := "Delete"]> Example.vars) Example.served
          Example.created [])
  = ([], Rejected (Error "METHOD must be PUT or POST (got: DELETE)")).
Proof.
  split; [reflexivity|].
  refine (bad_method_is_quoted_in_upper_case
            (Example.world (<["METHOD" := "Delete"]> Example.vars) Example.served
               Example.created [])
            "https://example.org/data.ttl" "CONSTRUCT {?s ?p ?o} WHERE {?s ?p ?o}"
            "https://example.org/store" "Delete" _ _ _ eq_refl _ eq_refl _ _);
    first [ by split | discriminate ].
Defined.



(** *** [main]: what it never does *)

(** X13. In every world [main] issues at most two requests and never
    repeats one: nothing when the parameters are rejected, else the GET of
    the source, followed at most by one PUT or POST to the store. *)
Theorem main_never_retries (w : World) :
  requests (trace (main w)) = []
  ∨ ∃ cfg,
      Configured w cfg ∧
      (requests (trace (main w)) = [sourceRequest (Spec.sourceUrl cfg)]
       ∨ ∃ ttl,
           requests (trace (main w)) =
             [ sourceRequest (Spec.sourceUrl cfg);
               writeRequest (Spec.storeUrl cfg) (Spec.httpMethod (Spec.writeMethod cfg)) ttl ]).
Proof.
  destruct (resolution_cases w) as [[cfg Hcfg]|(e & _ & ->)]; [|by left].
  right. exists cfg. split; [done|]. by apply main_requests.
Qed.

(** *** [main]: the first failure ends the run *)

Section Failures.

Variable w : World.
Variable cfg : Spec.Configuration.
Hypothesis Hcfg : Configured w cfg.

(** X14. Whatever makes the loading of the source fail (no answer, a bad
    status, a missing body, a parse error), [main] rejects with that very
    reason right after the effects of the loading: no query is evaluated
    and nothing is written. *)
Theorem load_failure_ends_the_run (t : list Effect) (reason : Thrown) :
  fetchRdfToStore w (Spec.sourceUrl cfg) = (t, Rejected reason) →
  main w =
    (ConsoleError ("[1/3] Fetching RDF from: " +:+ Spec.sourceUrl cfg) :: t,
     Rejected reason).
Proof. intros Hload. pose proof Hcfg as H. configured H. by rewrite Hload. Qed.

(** X15. When the engine rejects the query, or its result stream fails,
    [main] rejects with that reason; the last effect is the call of the
    engine, so the writer is not called and nothing is sent to the store. *)
Theorem query_failure_skips_the_write (t : list Effect) (store : Store)
    (reason : Thrown) :
  fetchRdfToStore w (Spec.sourceUrl cfg) = (t, Resolved store) →
  queryQuads w (Spec.query cfg) store = Rejected reason
  ∨ (∃ results, queryQuads w (Spec.query cfg) store = Resolved results
                ∧ ending results = Failed reason) →
  main w =
    (ConsoleError ("[1/3] Fetching RDF from: " +:+ Spec.sourceUrl cfg) :: t
     ++ [ConsoleError ("[1/3] Loaded quads: " +:+ Js.show (store_size w store));
         ConsoleError "[2/3] Evaluating SPARQL query...";
         QueryQuads (Spec.query cfg) store],
     Rejected reason).
Proof.
  intros Hload Hquery. pose proof Hcfg as H. configured H. rewrite Hload. exec.
  destruct Hquery as [Hquery|(results & Hquery & Hend)]; rewrite Hquery; exec; [done|].
  rewrite streamToArray_spec, Hend. by exec.
Qed.

(** X16. When the writer fails, [main] rejects with the writer's error and
    sends nothing to the store: the only request of the run is the GET of
    the source. *)
Theorem writer_failure_skips_the_write (t : list Effect) (store : Store)
    (results : Stream Quad) (reason : Thrown) :
  fetchRdfToStore w (Spec.sourceUrl cfg) = (t, Resolved store) →
  queryQuads w (Spec.query cfg) store = Resolved results →
  ending results = End →
  writer_end w (chunks results) = Rejected reason →
  outcome (main w) = Rejected reason ∧
  last (trace (main w)) = Some (WriteTurtle (chunks results)) ∧
  requests (trace (main w)) = [sourceRequest (Spec.sourceUrl cfg)].
Proof.
  intros Hload Hquery Hend Httl.
  pose proof (fetchRdfToStore_requests w (Spec.sourceUrl cfg)) as Hr.
  rewrite Hload in Hr. simpl in Hr.
  pose proof Hcfg as H. configured H. rewrite Hload. exec. rewrite Hquery. exec.
  rewrite streamToArray_spec, Hend. exec. rewrite Httl. exec.
  split_and!; [done| |].
  - rewrite app_comm_cons.
    change [?a; ?b; ?c; ?d; ?e] with ([a; b; c; d] ++ [e]).
    by rewrite app_assoc, last_snoc.
  - count_requests. by rewrite Hr.
Qed.

(** X17. The run in full when every stage succeeds: the progress lines and
    the calls of the collaborators, in this order, the count of the store
    and the count of the result quads in the lines that report them, and
    [Done] as the last line.  The body of the store's answer is not read. *)
Theorem successful_run (t : list Effect) (store : Store) (results : Stream Quad)
    (ttl : string) (writeRes : Response.t) :
  fetchRdfToStore w (Spec.sourceUrl cfg) = (t, Resolved store) →
  queryQuads w (Spec.query cfg) store = Resolved results →
  ending results = End →
  writer_end w (chunks results) = Resolved ttl →
  fetch w (writeRequest (Spec.storeUrl cfg) (Spec.httpMethod (Spec.writeMethod cfg)) ttl)
    = Resolved writeRes →
  (200 ≤ Response.status writeRes ≤ 299)%N →
  main w =
    (ConsoleError ("[1/3] Fetching RDF from: " +:+ Spec.sourceUrl cfg) :: t
     ++ [ConsoleError ("[1/3] Loaded quads: " +:+ Js.show (store_size w store));
         ConsoleError "[2/3] Evaluating SPARQL query...";
         QueryQuads (Spec.query cfg) store;
         ConsoleError ("[2/3] Result quads: "
                         +:+ Js.show (N.of_nat (length (chunks results))));
         WriteTurtle (chunks results);
         ConsoleError ("[3/3] Writing results to store: " +:+ Spec.storeUrl cfg
                         +:+ " (METHOD=" +:+ Spec.httpMethod (Spec.writeMethod cfg)
                         +:+ ")");
         HttpFetch (writeRequest (Spec.storeUrl cfg)
                      (Spec.httpMethod (Spec.writeMethod cfg)) ttl);
         ConsoleError "[3/3] Done."],
     Resolved tt).
Proof.
  intros Hload Hquery Hend Httl Hwrite Hok%ok_iff.
  pose proof Hcfg as H. configured H. rewrite Hload. exec. rewrite Hquery. exec.
  rewrite streamToArray_spec, Hend. exec. rewrite Httl. exec.
  rewrite Hwrite. exec. rewrite Hok. by exec.
Qed.

End Failures.

Lemma load_failure_ends_the_run_witness :
  Configured
    (Faulty.world (Resolved Example.served) (Resolved Example.created) Faulty.truncated
       (Resolved Faulty.one) (Resolved Example.ttl))
    Example.append
  ∧ main (Faulty.world (Resolved Example.served) (Resolved Example.created)
            Faulty.truncated (Resolved Faulty.one) (Resolved Example.ttl))
    = ([ConsoleError "[1/3] Fetching RDF from: https://example.org/data.ttl";
        HttpFetch (sourceRequest "https://example.org/data.ttl");
        RdfParse "<a> <b> <c> ." "text/turtle" "https://example.org/data.ttl"],
       Rejected (Error "Unexpected end of input")).
Proof.
  assert (Configured
            (Faulty.world (Resolved Example.served) (Resolved Example.created)
               Faulty.truncated (Resolved Faulty.one) (Resolved Example.ttl))
            Example.append) as H by (repeat split; reflexivity).
  split; [exact H|].
  exact (load_failure_ends_the_run _ _ H
           [HttpFetch (sourceRequest "https://example.org/data.ttl");
            RdfParse "<a> <b> <c> ." "text/turtle" "https://example.org/data.ttl"]
           (Error "Unexpected end of input") eq_refl).
Defined.

Lemma query_failure_skips_the_write_witness :
  Configured
    (Faulty.world (Resolved Example.served) (Resolved Example.created) Faulty.one
       (Rejected (Error "Parse error on line 1")) (Resolved Example.ttl))
    Example.append
  ∧ main (Faulty.world (Resolved Example.served) (Resolved Example.created) Faulty.one
            (Rejected (Error "Parse error on line 1")) (Resolved Example.ttl))
    = ([ConsoleError "[1/3] Fetching RDF from: https://example.org/data.ttl";
        HttpFetch (sourceRequest "https://example.org/data.ttl");
        RdfParse "<a> <b> <c> ." "text/turtle" "https://example.org/data.ttl";
        NewStore [Example.triple];
        ConsoleError "[1/3] Loaded quads: 1";
        ConsoleError "[2/3] Evaluating SPARQL query...";
        QueryQuads "CONSTRUCT {?s ?p ?o} WHERE {?s ?p ?o}" {| added := [Example.triple] |}],
       Rejected (Error "Parse error on line 1")).
Proof.
  assert (Configured
            (Faulty.world (Resolved Example.served) (Resolved Example.created) Faulty.one
               (Rejected (Error "Parse error on line 1")) (Resolved Example.ttl))
            Example.append) as H by (repeat split; reflexivity).
  split; [exact H|].
  exact (query_failure_skips_the_write _ _ H
           [HttpFetch (sourceRequest "https://example.org/data.ttl");
            RdfParse "<a> <b> <c> ." "text/turtle" "https://example.org/data.ttl";
            NewStore [Example.triple]]
           {| added := [Example.triple] |} (Error "Parse error on line 1")
           eq_refl (or_introl eq_refl)).
Defined.

Lemma writer_failure_skips_the_write_witness :
  Configured
    (Faulty.world (Resolved Example.served) (Resolved Example.created) Faulty.one
       (Resolved Faulty.one) (Rejected (Error "Invalid quad")))
    Example.append
  ∧ outcome (main (Faulty.world (Resolved Example.served) (Resolved Example.created)
                     Faulty.one (Resolved Faulty.one) (Rejected (Error "Invalid quad"))))
    = Rejected (Error "Invalid quad")
  ∧ last (trace (main (Faulty.world (Resolved Example.served) (Resolved Example.created)
                         Faulty.one (Resolved Faulty.one) (Rejected (Error "Invalid quad")))))
    = Some (WriteTurtle [Example.triple])
  ∧ requests (trace (main (Faulty.world (Resolved Example.served)
                             (Resolved Example.created) Faulty.one (Resolved Faulty.one)
                             (Rejected (Error "Invalid quad")))))
    = [sourceRequest "https://example.org/data.ttl"].
Proof.
  assert (Configured
            (Faulty.world (Resolved Example.served) (Resolved Example.created) Faulty.one
               (Resolved Faulty.one) (Rejected (Error "Invalid quad")))
            Example.append) as H by (repeat split; reflexivity).
  split; [exact H|].
  exact (writer_failure_skips_the_write _ _ H
           [HttpFetch (sourceRequest "https://example.org/data.ttl");
            RdfParse "<a> <b> <c> ." "text/turtle" "https://example.org/data.ttl";
            NewStore [Example.triple]]
           {| added := [Example.triple] |} Faulty.one (Error "Invalid quad")
           eq_refl eq_refl eq_refl eq_refl).
Defined.

Lemma successful_run_witness :
  Configured
    (Faulty.world (Resolved Example.served) (Resolved Example.created) Faulty.one
       (Resolved Faulty.one) (Resolved Example.ttl))
    Example.append
  ∧ main (Faulty.world (Resolved Example.served) (Resolved Example.created) Faulty.one
            (Resolved Faulty.one) (Resolved Example.ttl))
    = ([ConsoleError "[1/3] Fetching RDF from: https://example.org/data.ttl";
        HttpFetch (sourceRequest "https://example.org/data.ttl");
        RdfParse "<a> <b> <c> ." "text/turtle" "https://example.org/data.ttl";
        NewStore [Example.triple];
        ConsoleError "[1/3] Loaded quads: 1";
        ConsoleError "[2/3] Evaluating SPARQL query...";
        QueryQuads "CONSTRUCT {?s ?p ?o} WHERE {?s ?p ?o}" {| added := [Example.triple] |};
        ConsoleError "[2/3] Result quads: 1";
        WriteTurtle [Example.triple];
        ConsoleError "[3/3] Writing results to store: https://example.org/store (METHOD=POST)";
        HttpFetch (writeRequest "https://example.org/store" "POST" "<a> <b> <c> .");
        ConsoleError "[3/3] Done."],
       Resolved tt).
Proof.
  assert (Configured
            (Faulty.world (Resolved Example.served) (Resolved Example.created) Faulty.one
               (Resolved Faulty.one) (Resolved Example.ttl))
            Example.append) as H by (repeat split; reflexivity).
  split; [exact H|].
  refine (successful_run _ _ H
            [HttpFetch (sourceRequest "https://example.org/data.ttl");
             RdfParse "<a> <b> <c> ." "text/turtle" "https://example.org/data.ttl";
             NewStore [Example.triple]]
            {| added := [Example.triple] |} Faulty.one Example.ttl Example.created
            eq_refl eq_refl eq_refl eq_refl eq_refl _).
  simpl. lia.
Defined.

(** X18. When the request to the store is rejected (no answer at all),
    [main] rejects with the same reason, unwrapped; the request is the
    last effect: no body is read and no publish error is composed. *)
Theorem write_network_failure (w : World) (cfg : Spec.Configuration)
    (quads : list Quad) (ttl : string) (reason : Thrown) :
  ReachesPublish w cfg quads ttl →
  fetch w (writeRequest (Spec.storeUrl cfg) (Spec.httpMethod (Spec.writeMethod cfg)) ttl)
    = Rejected reason →
  outcome (main w) = Rejected reason ∧
  last (trace (main w))
    = Some (HttpFetch (writeRequest (Spec.storeUrl cfg)
                         (Spec.httpMethod (Spec.writeMethod cfg)) ttl)).
Proof.
  intros (before & Hb & ->)%main_publish Hwrite. cbv zeta. rewrite Hwrite.
  split; [done|]. cbn [trace fst]. by rewrite last_snoc.
Qed.

Lemma write_network_failure_witness :
  ReachesPublish
    (Faulty.world (Resolved Example.served) (Rejected (Other "fetch failed")) Faulty.one
       (Resolved Faulty.one) (Resolved Example.ttl))
    Example.append [Example.triple] Example.ttl
  ∧ outcome (main (Faulty.world (Resolved Example.served) (Rejected (Other "fetch failed"))
                     Faulty.one (Resolved Faulty.one) (Resolved Example.ttl)))
    = Rejected (Other "fetch failed")
  ∧ last (trace (main (Faulty.world (Resolved Example.served)
                         (Rejected (Other "fetch failed")) Faulty.one
                         (Resolved Faulty.one) (Resolved Example.ttl))))
    = Some (HttpFetch (writeRequest "https://example.org/store" "POST" "<a> <b> <c> .")).
Proof.
  assert (ReachesPublish
            (Faulty.world (Resolved Example.served) (Rejected (Other "fetch failed"))
               Faulty.one (Resolved Faulty.one) (Resolved Example.ttl))
            Example.append [Example.triple] Example.ttl) as H.
  { split; [repeat split; reflexivity|]. eexists _, _, _. split_and!; reflexivity. }
  split; [exact H|].
  exact (write_network_failure _ _ _ _ (Other "fetch failed") H eq_refl).
Defined.

(** The one way for [main] to resolve. *)
Lemma resolved_run (w : World) :
  outcome (main w) = Resolved tt
  ↔ ∃ cfg quads ttl writeRes,
      ReachesPublish w cfg quads ttl ∧
      fetch w (writeRequest (Spec.storeUrl cfg)
                 (Spec.httpMethod (Spec.writeMethod cfg)) ttl) = Resolved writeRes ∧
      (200 ≤ Response.status writeRes ≤ 299)%N.
Proof.
  split.
  - intros Hres.
    destruct (resolution_cases w) as [[cfg Hcfg]|(e & _ & Hm)];
      [|by rewrite Hm in Hres].
    destruct (fetchRdfToStore w (Spec.sourceUrl cfg)) as [t [store|e]] eqn:Hload.
    2: { pose proof Hcfg as H. revert Hres. configured H. by rewrite Hload. }
    destruct (queryQuads w (Spec.query cfg) store) as [results|e] eqn:Hquery.
    2: { pose proof Hcfg as H. revert Hres. configured H. rewrite Hload. exec.
         by rewrite Hquery. }
    destruct (ending results) as [|e] eqn:Hend.
    2: { pose proof Hcfg as H. revert Hres. configured H. rewrite Hload. exec.
         rewrite Hquery. exec. by rewrite streamToArray_spec, Hend. }
    destruct (writer_end w (chunks results)) as [ttl|e] eqn:Httl.
    2: { pose proof Hcfg as H. revert Hres. configured H. rewrite Hload. exec.
         rewrite Hquery. exec. rewrite streamToArray_spec, Hend. exec.
         by rewrite Httl. }
    assert (ReachesPublish w cfg (chunks results) ttl) as Hreach.
    { split; [done|]. by exists t, store, results. }
    exists cfg, (chunks results), ttl.
    destruct (main_publish w cfg _ _ Hreach) as (before & _ & Hmain).
    rewrite Hmain in Hres. cbv zeta in Hres.
    destruct (fetch w _) as [writeRes|e]; [|done].
    exists writeRes. split; [done|]. split; [done|].
    apply ok_iff. by destruct (Response.ok writeRes).
  - intros (cfg & quads & ttl & writeRes & Hreach & Hwrite & Hok%ok_iff).
    destruct (main_publish w cfg _ _ Hreach) as (before & _ & ->).
    cbv zeta. by rewrite Hwrite, Hok.
Qed.

(** X19. [main] resolves in exactly one case: the run reached the write
    and the store answered it with a status from 200 to 299.  So a run
    that resolves has written its result and had it accepted. *)
Theorem main_resolves_iff_write_accepted (w : World) :
  outcome (main w) = Resolved tt
  ↔ ∃ cfg quads ttl writeRes,
      ReachesPublish w cfg quads ttl ∧
      fetch w (writeRequest (Spec.storeUrl cfg)
                 (Spec.httpMethod (Spec.writeMethod cfg)) ttl) = Resolved writeRes ∧
      (200 ≤ Response.status writeRes ≤ 299)%N.
Proof. apply resolved_run. Qed.

(** *** The process *)

(** X20. When a required parameter is absent or blank, all the process
    prints is one line, [ERROR:] followed by the host's text for the error
    that names the first such parameter, and it ends with
    [process.exit(1)]. *)
Theorem missing_parameter_ends_the_process (w : World) (rendering : Thrown → string)
    (name : string) :
  firstMissing w = Some name →
  program w rendering =
    ([ConsoleError ("ERROR: " +:+ rendering (Error ("Missing env var: " +:+ name)))],
     Some 1%N).
Proof.
  unfold firstMissing, program. cbn [find].
  destruct (absentOrBlank w "URL") eqn:HU.
  { intros [= <-]. by rewrite missing_URL by by apply absentOrBlank_missing. }
  apply absentOrBlank_present in HU as [URL HU].
  destruct (absentOrBlank w "Query") eqn:HQ.
  { intros [= <-]. by rewrite (missing_Query w URL) by by try apply absentOrBlank_missing. }
  apply absentOrBlank_present in HQ as [QUERY HQ].
  destruct (absentOrBlank w "STORE") eqn:HS; [|done].
  intros [= <-].
  by rewrite (missing_STORE w URL QUERY) by by try apply absentOrBlank_missing.
Qed.

Lemma missing_parameter_ends_the_process_witness :
  firstMissing (Example.world Faulty.incomplete Example.served Example.created [])
  = Some "Query"
  ∧ program (Example.world Faulty.incomplete Example.served Example.created [])
      (λ e, match e with Error message => "Error: " +:+ message | Other what => what end)
    = ([ConsoleError "ERROR: Error: Missing env var: Query"], Some 1%N).
Proof.
  split; [reflexivity|].
  exact (missing_parameter_ends_the_process
           (Example.world Faulty.incomplete Example.served Example.created [])
           (λ e, match e with Error message => "Error: " +:+ message | Other what => what end)
           "Query" eq_refl).
Defined.

(** X21. The process ends without a call of [process.exit] exactly when
    the run reached the write and the store answered it with a status from
    200 to 299; in every other case it calls [process.exit(1)], and never
    with another status. *)
Theorem clean_exit_iff_write_accepted (w : World) (rendering : Thrown → string) :
  ((program w rendering).2 = None ∨ (program w rendering).2 = Some 1%N) ∧
  ((program w rendering).2 = None
   ↔ ∃ cfg quads ttl writeRes,
       ReachesPublish w cfg quads ttl ∧
       fetch w (writeRequest (Spec.storeUrl cfg)
                  (Spec.httpMethod (Spec.writeMethod cfg)) ttl) = Resolved writeRes ∧
       (200 ≤ Response.status writeRes ≤ 299)%N).
Proof.
  rewrite <- resolved_run. unfold program.
  destruct (main w) as [t [[]|e]]; simpl; split; auto; split; done.
Qed.
